(** * PyWarnFixer: the warning-remediation engine of [fixes/fixes.py] and
    [fixes/anthropic_api.py], embedded in Rocq.

    Conventions of the embedding.
    - A Python [str] is a Rocq [string]; a character is a code point below
      256, so that [str.isspace] and the regular expression class [\s] are
      the twelve white-space code points of that range.
    - A Python [int] is a [Z]; list indices and slices follow Python's rules
      for negative and out-of-range values.
    - The disk is a finite map from paths to files; the suggester calls that
      were made and the records handed to [logging] are kept in the world
      next to it, so that "no call" and "no log entry" can be stated.
    - A Python exception is the [Raise] outcome of a computation; the world
      keeps every effect performed before the exception was raised. *)

From Stdlib Require Import ZArith Ascii String List Lia Bool Sorted.
From stdpp Require Import base option list sorting gmap strings.
From Equations Require Import Equations.

Local Open Scope Z_scope.
Set Warnings "-register-all".

(* ===================================================================== *)
(** ** Python built-ins on [str] *)
(* ===================================================================== *)

Module Py.

(** [str.isspace] on one character (code points below 256). *)
Definition is_space (c : ascii) : bool :=
  match nat_of_ascii c with
  | 9%nat | 10%nat | 11%nat | 12%nat | 13%nat
  | 28%nat | 29%nat | 30%nat | 31%nat | 32%nat
  | 133%nat | 160%nat => true
  | _ => false
  end.

Definition newline : ascii := ascii_of_nat 10.
Definition nl : string := String newline EmptyString.

(** [len(s)] *)
Definition len (s : string) : Z := Z.of_nat (String.length s).

(** [bool(s)]: a string is truthy when it is not empty. *)
Definition truthy (s : string) : bool :=
  match s with EmptyString => false | String _ _ => true end.

(** Dropping from the left, and from the right, the characters that
    satisfy [sp]. *)
Fixpoint lstrip_chars (sp : ascii -> bool) (s : string) : string :=
  match s with
  | EmptyString => EmptyString
  | String c s' => if sp c then lstrip_chars sp s' else s
  end.

Fixpoint rstrip_chars (sp : ascii -> bool) (s : string) : string :=
  match s with
  | EmptyString => EmptyString
  | String c s' =>
      match rstrip_chars sp s' with
      | EmptyString => if sp c then EmptyString else String c EmptyString
      | r => String c r
      end
  end.

(** [s.lstrip()], [s.rstrip()] and [s.strip()] *)
Definition lstrip (s : string) : string := lstrip_chars is_space s.
Definition rstrip (s : string) : string := rstrip_chars is_space s.
Definition strip (s : string) : string := lstrip (rstrip s).

(** [s.split(sep)] for a separator of one character. *)
Fixpoint split (sep : ascii) (s : string) : list string :=
  match s with
  | EmptyString => [EmptyString]
  | String c s' =>
      if Ascii.eqb c sep then EmptyString :: split sep s'
      else match split sep s' with
           | x :: xs => String c x :: xs
           | [] => [String c EmptyString]
           end
  end.

(** [sep.join(parts)] *)
Fixpoint join (sep : string) (parts : list string) : string :=
  match parts with
  | [] => EmptyString
  | [x] => x
  | x :: xs => x +:+ sep +:+ join sep xs
  end.

(** [n * s] for an integer [n]: the empty string when [n <= 0]. *)
Fixpoint repeat_nat (n : nat) (s : string) : string :=
  match n with
  | O => EmptyString
  | S n' => s +:+ repeat_nat n' s
  end.

Definition mul (n : Z) (s : string) : string := repeat_nat (Z.to_nat n) s.

(** [s.replace(a, b)] for characters [a] and [b]. *)
Fixpoint replace_char (a b : ascii) (s : string) : string :=
  match s with
  | EmptyString => EmptyString
  | String c s' => String (if Ascii.eqb c a then b else c) (replace_char a b s')
  end.

(** The text mode of [open(..., 'r')] with universal newlines: CR LF and a
    lone CR are read as LF. *)
Fixpoint universal_newlines (s : string) : string :=
  match s with
  | EmptyString => EmptyString
  | String c s' =>
      if Ascii.eqb c (ascii_of_nat 13) then
        match s' with
        | String d _ =>
            if Ascii.eqb d newline then universal_newlines s'
            else String newline (universal_newlines s')
        | EmptyString => String newline EmptyString
        end
      else String c (universal_newlines s')
  end.

(** [file.readlines()] on text already read: every line keeps its
    terminator, the last one has none when the text does not end in LF. *)
Fixpoint readlines (s : string) : list string :=
  match s with
  | EmptyString => []
  | String c s' =>
      if Ascii.eqb c newline then String c EmptyString :: readlines s'
      else match readlines s' with
           | x :: xs => String c x :: xs
           | [] => [String c EmptyString]
           end
  end.

(** [''.join(lines)], what [file.writelines(lines)] writes. *)
Definition concat_lines (lines : list string) : string :=
  fold_right String.append EmptyString lines.

(** *** Lists indexed by Python integers *)

Section PyList.
Context {A : Type}.

(** [l[i]]: a negative index counts from the end; [None] stands for the
    [IndexError] of an index out of range. *)
Definition index (l : list A) (i : Z) : option A :=
  let n := Z.of_nat (length l) in
  let j := if i <? 0 then i + n else i in
  if (j <? 0) || (n <=? j) then None else l !! Z.to_nat j.

(** The bound of a slice, clamped into [0 .. len(l)]. *)
Definition clamp (l : list A) (i : Z) : nat :=
  let n := Z.of_nat (length l) in
  let j := if i <? 0 then i + n else i in
  Z.to_nat (Z.min n (Z.max 0 j)).

(** [l[a:b]] *)
Definition slice (l : list A) (a b : Z) : list A :=
  let lo := clamp l a in
  let hi := clamp l b in
  take (hi - lo)%nat (drop lo l).

(** [del l[a:b]] *)
Definition del_slice (l : list A) (a b : Z) : list A :=
  let lo := clamp l a in
  let hi := clamp l b in
  take lo l ++ drop (Nat.max lo hi) l.

(** [l.insert(i, x)] *)
Definition insert (l : list A) (i : Z) (x : A) : list A :=
  let k := clamp l i in
  take k l ++ x :: drop k l.
End PyList.

(** *** [int(s)] on a string *)

Definition digit_of (c : ascii) : option Z :=
  let n := nat_of_ascii c in
  if (48 <=? n)%nat && (n <=? 57)%nat then Some (Z.of_nat (n - 48)) else None.

Definition underscore : ascii := ascii_of_nat 95.

(** Digits with single underscores between them, read left to right;
    [prev] tells whether the character before was a digit. *)
Fixpoint int_digits (acc : Z) (prev : bool) (s : string) : option Z :=
  match s with
  | EmptyString => if prev then Some acc else None
  | String c s' =>
      match digit_of c with
      | Some d => int_digits (10 * acc + d) true s'
      | None =>
          if Ascii.eqb c underscore && prev then int_digits acc false s'
          else None
      end
  end.

(** The white space that [int] skips around a literal: the characters of
    [str.isspace] apart from the four separators 28 to 31. *)
Definition is_int_space (c : ascii) : bool :=
  is_space c && negb ((28 <=? nat_of_ascii c)%nat && (nat_of_ascii c <=? 31)%nat).

(** [sys.int_info.default_max_str_digits]: a literal with more digits is
    refused with [ValueError]. *)
Definition max_str_digits : Z := 4300.

(** The digits of a literal, leading zeros included; signs, underscores
    and white space do not count. *)
Fixpoint count_digits (s : string) : Z :=
  match s with
  | EmptyString => 0
  | String c s' =>
      (match digit_of c with Some _ => 1 | None => 0 end) + count_digits s'
  end.

(** [int(s)]: white space around the literal is dropped, one sign is
    allowed, the number of digits is limited; [None] stands for
    [ValueError]. *)
Definition int (s : string) : option Z :=
  let literal := lstrip_chars is_int_space (rstrip_chars is_int_space s) in
  if max_str_digits <? count_digits literal then None
  else
    match literal with
    | String c s' =>
        if Ascii.eqb c (ascii_of_nat 45) then Z.opp <$> int_digits 0 false s'
        else if Ascii.eqb c (ascii_of_nat 43) then int_digits 0 false s'
        else int_digits 0 false (String c s')
    | EmptyString => None
    end.

End Py.

(* ===================================================================== *)
(** ** The syntax tree of [ast.parse] and the traversal of [ast.walk] *)
(* ===================================================================== *)

Module Ast.

(** The node classes the engine tells apart; every other class is
    [OtherNode]. *)
Inductive node_kind :=
  | FunctionDef | AsyncFunctionDef | ClassDef | ModuleNode | OtherNode.

(** A node with the two attributes the engine reads, [lineno] and
    [end_lineno] (both 1-based), and its children in the order of
    [ast.iter_child_nodes]. *)
Inductive node :=
  | Node (kind : node_kind) (lineno end_lineno : Z) (children : list node).

Definition kind (n : node) : node_kind := let 'Node k _ _ _ := n in k.
Definition lineno (n : node) : Z := let 'Node _ a _ _ := n in a.
Definition end_lineno (n : node) : Z := let 'Node _ _ b _ := n in b.
Definition children (n : node) : list node := let 'Node _ _ _ cs := n in cs.

Definition is_FunctionDef (n : node) : bool :=
  match kind n with FunctionDef => true | _ => false end.

Fixpoint node_size (n : node) : nat :=
  match n with
  | Node _ _ _ cs =>
      S ((fix forest (l : list node) : nat :=
            match l with
            | [] => O
            | c :: l' => (node_size c + forest l')%nat
            end) cs)
  end.

Fixpoint forest_size (l : list node) : nat :=
  match l with
  | [] => O
  | c :: l' => (node_size c + forest_size l')%nat
  end.

Lemma node_size_children n : node_size n = S (forest_size (children n)).
Proof.
  destruct n as [k a b cs]. reflexivity.
Qed.

Lemma forest_size_app l1 l2 :
  forest_size (l1 ++ l2) = (forest_size l1 + forest_size l2)%nat.
Proof. induction l1 as [|c l1 IH]; simpl; [reflexivity | rewrite IH; lia]. Qed.

(** The loop of [ast.walk]: a queue of nodes still to visit; the node at
    the front is yielded and its children join the back of the queue. *)
Equations? walk_queue (todo : list node) : list node
  by wf (forest_size todo) lt :=
walk_queue [] := [];
walk_queue (n :: todo) := n :: walk_queue (todo ++ children n).
Proof.
  rewrite forest_size_app, (node_size_children n). lia.
Qed.

(** [ast.walk(tree)] *)
Definition walk (tree : node) : list node := walk_queue [tree].

End Ast.

(* ===================================================================== *)
(** ** The search of [re.search] for the pattern of the suggester reply *)
(* ===================================================================== *)

Module Re.

(** Backtracking matchers in continuation-passing style: a matcher takes
    what follows it in the pattern and the input still to read. *)
Section Matchers.
Context {R : Type}.

(** A literal. *)
Fixpoint lit (p : string) (k : string -> option R) (s : string) : option R :=
  match p with
  | EmptyString => k s
  | String a p' =>
      match s with
      | String c s' => if Ascii.eqb a c then lit p' k s' else None
      | EmptyString => None
      end
  end.

(** [\s+], greedy: one white-space character, then as many more as
    possible, giving them back one at a time when what follows fails. *)
Fixpoint spaces (k : string -> option R) (s : string) : option R :=
  match s with
  | String c s' =>
      if Py.is_space c then
        match spaces k s' with
        | Some r => Some r
        | None => k s'
        end
      else None
  | EmptyString => None
  end.

(** [(.*?)] with [re.DOTALL], lazy: what follows is tried first, one more
    character of any kind is taken when it fails. [acc] is the text of
    the group so far. *)
Fixpoint any_lazy (k : string -> string -> option R) (acc s : string)
  : option R :=
  match k acc s with
  | Some r => Some r
  | None =>
      match s with
      | String c s' => any_lazy k (acc +:+ String c EmptyString) s'
      | EmptyString => None
      end
  end.
End Matchers.

Definition backtick : ascii := ascii_of_nat 96.
Definition fence : string := String backtick (String backtick (String backtick EmptyString)).
Definition opener : string := fence +:+ "python".

(** The pattern [```python\s+(.*?)\s+```] matched at the start of [s];
    the result is group 1. *)
Definition match_here (s : string) : option string :=
  lit opener
    (spaces
       (any_lazy (fun g => spaces (lit fence (fun _ => Some g))) EmptyString))
    s.

(** [re.search]: the match at the leftmost position that has one. *)
Fixpoint search (s : string) : option string :=
  match match_here s with
  | Some g => Some g
  | None =>
      match s with
      | String _ s' => search s'
      | EmptyString => None
      end
  end.

End Re.

(* ===================================================================== *)
(** ** Exceptions, the world and the monad of effects *)
(* ===================================================================== *)

(** The exception classes that the modelled operations raise. All of them
    derive from [Exception]. *)
Inductive exn :=
  | SyntaxError | TypeError | ValueError | UnicodeDecodeError | IndexError
  | AssertionError | FileNotFoundError | RecursionError | MemoryError
  | APIError.

Global Instance exn_eq_dec : EqDecision exn.
Proof. solve_decision. Defined.

(** [isinstance(e, cls)]: a class is an instance of itself, and
    [UnicodeDecodeError] is a subclass of [ValueError]. *)
Definition isinstance (e cls : exn) : bool :=
  bool_decide (e = cls) ||
  match e, cls with
  | UnicodeDecodeError, ValueError => true
  | _, _ => false
  end.

(** [fixes/context.py] *)
Inductive Context := LINE | METHOD | CLASS | FILE | MODULE | PROJECT.

Inductive log_level := INFO | WARNING | ERROR.

(** A log record: the template of the f-string and the values of its
    holes. *)
Inductive log_msg :=
  | Plain (text : string)
  | SkippingLine (line : string)
  | UnsupportedContext (context : Context) (line_number : Z) (file_path : string)
  | MethodNotFound (line_number : Z) (file_path : string)
  | SyntacticallyCorrect (file_path : string)
  | SyntaxErrorIn (file_path : string) (e : exn)
  | UnexpectedErrorIn (file_path : string) (e : exn).

(** A file on disk: text that decodes as UTF-8, or bytes that do not. For
    the latter, [read()] raises and returns nothing, while an iteration
    over the lines, which decodes the file piece by piece, hands out the
    lines of the pieces before the one that does not decode: [delivered]
    is their text (empty for a file of one piece). *)
Inductive disk_file := Text (s : string) | Undecodable (delivered : string).

(** The request sent by [client.messages.create]: the system prompt and the
    text of the user message. *)
Record api_request := { req_system : string; req_text : string }.

Record world := {
  files : gmap string disk_file;
  api_calls : list api_request;
  log : list (log_level * log_msg)
}.

Inductive outcome (A : Type) := Ok (a : A) | Raise (e : exn).
Arguments Ok {A} a.
Arguments Raise {A} e.

Definition M (A : Type) : Type := world -> outcome A * world.

Definition ret {A} (a : A) : M A := fun w => (Ok a, w).
Definition raise {A} (e : exn) : M A := fun w => (Raise e, w).
Definition bind {A B} (m : M A) (k : A -> M B) : M B :=
  fun w => match m w with
           | (Ok a, w') => k a w'
           | (Raise e, w') => (Raise e, w')
           end.

Notation "'let*' x ':=' m 'in' k" := (bind m (fun x => k))
  (at level 10, x pattern, m at level 100, k at level 200).
Notation "m '>>' k" := (bind m (fun _ => k))
  (at level 61, k at next level, left associativity).

(** [try: m except <classes>: h], with the handlers tried in order. *)
Fixpoint handle {A} (hs : list ((exn -> bool) * (exn -> M A))) (e : exn) : M A :=
  match hs with
  | [] => raise e
  | (catches, h) :: hs' => if catches e then h e else handle hs' e
  end.

Definition try_except {A} (m : M A) (hs : list ((exn -> bool) * (exn -> M A))) : M A :=
  fun w => match m w with
           | (Ok a, w') => (Ok a, w')
           | (Raise e, w') => handle hs e w'
           end.

(** [for x in xs: body(x)] *)
Fixpoint for_each {A} (xs : list A) (body : A -> M unit) : M unit :=
  match xs with
  | [] => ret tt
  | x :: xs' => body x >> for_each xs' body
  end.

(** The world after one more log record. *)
Definition add_log (w : world) (entry : log_level * log_msg) : world :=
  {| files := files w; api_calls := api_calls w; log := log w ++ [entry] |}.

Definition logging (lvl : log_level) (msg : log_msg) : M unit :=
  fun w => (Ok tt, add_log w (lvl, msg)).

(** [open(path, 'r', encoding='utf8')] followed by [read()]. *)
Definition read_text (path : string) : M string :=
  fun w => match files w !! path with
           | Some (Text s) => (Ok (Py.universal_newlines s), w)
           | Some (Undecodable _) => (Raise UnicodeDecodeError, w)
           | None => (Raise FileNotFoundError, w)
           end.

(** [open(path, 'r', encoding='utf8')] followed by [for line in file]: the
    lines that the loop receives, and the exception that ends the loop
    when the file does not decode to its end. *)
Definition open_lines (path : string) : M (list string * option exn) :=
  fun w => match files w !! path with
           | Some (Text s) =>
               (Ok (Py.readlines (Py.universal_newlines s), None), w)
           | Some (Undecodable delivered) =>
               (Ok (Py.readlines (Py.universal_newlines delivered),
                    Some UnicodeDecodeError), w)
           | None => (Raise FileNotFoundError, w)
           end.

(** [open(path, 'w', encoding='utf8')] followed by [writelines(lines)]. *)
Definition write_lines (path : string) (lines : list string) : M unit :=
  fun w => (Ok tt, {| files := <[path := Text (Py.concat_lines lines)]> (files w);
                      api_calls := api_calls w; log := log w |}).

(** [assert b] *)
Definition assert (b : bool) : M unit :=
  if b then ret tt else raise AssertionError.

(** [fixes/pylint_fix.py] *)
Definition DEFAULT_PROMPT : string :=
  "Your task is to analyze the provided pylint warning and Python code snippet "
  +:+ "and provide a corrected version of the code that resolves the warning. "
  +:+ "The corrected code should be functional in a bigger context, efficient, and adhere to best practices in Python programming. "
  +:+ "Keep in mind that it is a snippet from a bigger script, therefore keep things such as indentation level and ending commas "
  +:+ "such that it still works in the broader context and don't add imports, packages, new classes or new functions. "
  +:+ "If a function or package is getting called, assume that it already exists and is imported. "
  +:+ "You can also assume that the code is syntactically correct and the only issue is the pylint warning. ".

Record PylintFix := {
  name : string;
  code : string;
  prompt : string;
  context : Context
}.

Definition mkfix (n c : string) (ctx : Context) : PylintFix :=
  {| name := n; code := c; prompt := DEFAULT_PROMPT; context := ctx |}.

(** The warning record built by [parse_pylint_warnings]. *)
Record warning := {
  file_path : string;
  line_number : Z;
  character : string;
  error_code : string;
  error_message : string
}.

Definition PYLINT_FIXES : list PylintFix := [
  mkfix "no-else-return" "R1705" METHOD;
  mkfix "unspecified-encoding" "W1514" METHOD;
  mkfix "use-implicit-booleaness-not-comparison" "C1803" LINE;
  mkfix "consider-using-with" "R1732" METHOD;
  mkfix "unnecessary-comprehension" "R1721" LINE;
  mkfix "consider-using-in" "R1714" LINE;
  mkfix "chained-comparison" "R1716" LINE;
  mkfix "useless-return" "R1711" METHOD;
  mkfix "no-else-break" "R1723" METHOD;
  mkfix "consider-using-ternary" "R1706" LINE
].

(* ===================================================================== *)
(** ** [fixes/anthropic_api.py] and [fixes/fixes.py] *)
(* ===================================================================== *)

(** [get_starting_indentation(code)] *)
Fixpoint first_indentation (lines : list string) : Z :=
  match lines with
  | [] => 0
  | line :: rest =>
      if Py.truthy (Py.strip line) then Py.len line - Py.len (Py.lstrip line)
      else first_indentation rest
  end.

Definition get_starting_indentation (code : string) : Z :=
  first_indentation (Py.split Py.newline code).

(** [add_indentation(code, indentation)] *)
Definition add_indentation (code : string) (indentation : Z) : string :=
  let lines := Py.split Py.newline code in
  let indented_lines :=
    map (fun line => if Py.truthy (Py.strip line)
                     then Py.mul indentation " " +:+ line else line) lines in
  Py.join Py.nl indented_lines +:+ Py.nl.

(** The part of [anthropic_request] after the reply has arrived: group 1 of
    the first match, or the reply itself. *)
Definition extract_reply (text : string) : M string :=
  logging INFO (Plain "Extracting code from API response.") >>
  match Re.search text with
  | Some extracted_code =>
      logging INFO (Plain "Code extracted successfully.") >>
      ret extracted_code
  | None =>
      logging WARNING (Plain "No code block found in the response.") >>
      ret text
  end.

Section Engine.

(** The three collaborators outside the repository. *)

(** [compile(script, file_path, 'exec')]: [None] when the text compiles,
    the exception raised otherwise. *)
Variable py_compile : string -> option exn.

(** [ast.parse(source)]: the module node, or the exception raised. *)
Variable ast_parse : string -> outcome Ast.node.

(** [client.messages.create(...)] followed by [message.content[0].text]:
    the reply to a request, given the requests made before it, or the
    exception raised. *)
Variable api_create : list api_request -> api_request -> outcome string.

(** [anthropic_request(pylint_warning, code, prompt)] *)
Definition anthropic_request (pylint_warning code prompt : string) : M string :=
  logging INFO (Plain "Creating Anthropic client.") >>
  logging INFO (Plain "Sending request to Anthropic API.") >>
  let* text :=
    (fun w =>
       let req := {| req_system := prompt;
                     req_text := pylint_warning +:+ Py.nl +:+ code |} in
       (api_create (api_calls w) req,
        {| files := files w; api_calls := api_calls w ++ [req];
           log := log w |})) in
  logging INFO (Plain "Received response from Anthropic API.") >>
  extract_reply text.

(** [check_python_file(file_path)] *)
Definition check_python_file (file_path : string) : M bool :=
  try_except
    (let* script := read_text file_path in
     match py_compile script with
     | Some e => raise e
     | None =>
         logging INFO (SyntacticallyCorrect file_path) >>
         ret true
     end)
    [ (fun e => isinstance e SyntaxError || isinstance e TypeError,
       fun e => logging ERROR (SyntaxErrorIn file_path e) >> ret false);
      (fun _ => true,
       fun e => logging ERROR (UnexpectedErrorIn file_path e) >> ret false) ].

(** The branch [case Context.LINE] of [extract_code_from_context]. *)
Definition extract_line (file_path : string) (line_number : Z)
  : M (string * Z * Z) :=
  let* text := read_text file_path in
  let lines := Py.readlines text in
  match Py.index lines (line_number - 1) with
  | Some line => ret (line, line_number, line_number)
  | None => raise IndexError
  end.

(** The first node of the traversal that is a [FunctionDef] whose lines
    contain [line_number]: the [for] loop with its [return]. *)
Definition contains_line (line_number : Z) (n : Ast.node) : bool :=
  Ast.is_FunctionDef n &&
  (Ast.lineno n <=? line_number) && (line_number <=? Ast.end_lineno n).

Definition find_method (tree : Ast.node) (line_number : Z) : option Ast.node :=
  List.find (contains_line line_number) (Ast.walk tree).

(** [extract_method_from_line(file_path, line_number)]; its last line,
    the call [extract_code_from_context(..., Context.LINE)], is
    [extract_line]. *)
Definition extract_method_from_line (file_path : string) (line_number : Z)
  : M (string * Z * Z) :=
  let* source := read_text file_path in
  let* tree := (fun w => (ast_parse source, w)) in
  match find_method tree line_number with
  | Some node =>
      let method_lines :=
        Py.slice (Py.split Py.newline source)
                 (Ast.lineno node - 1) (Ast.end_lineno node) in
      let method_str := Py.join Py.nl method_lines in
      ret (method_str, Ast.lineno node, Ast.end_lineno node)
  | None =>
      logging INFO (MethodNotFound line_number file_path) >>
      extract_line file_path line_number
  end.

(** [extract_code_from_context(file_path, line_number, context)] *)
Definition extract_code_from_context (file_path : string) (line_number : Z)
    (context : Context) : M (string * Z * Z) :=
  match context with
  | LINE => extract_line file_path line_number
  | METHOD => extract_method_from_line file_path line_number
  | _ =>
      logging WARNING (UnsupportedContext context line_number file_path) >>
      ret (EmptyString, 0, 0)
  end.

(** [replace_code_in_file(file_path, new_code, code_start, code_end)];
    both bounds are integers at every call, so the test that they are not
    [None] succeeds. *)
Definition replace_code_in_file (file_path new_code : string)
    (code_start code_end : Z) : M unit :=
  let* text := read_text file_path in
  let lines := Py.readlines text in
  let lines := Py.del_slice lines (code_start - 1) code_end in
  let lines := Py.insert lines (code_start - 1) new_code in
  write_lines file_path lines.

(** The path that [apply_fix_to_warning] opens. *)
Definition target_path (w : warning) : string :=
  "./" +:+ Py.replace_char (ascii_of_nat 92) "/" (file_path w).

(** [apply_fix_to_warning(fix, warning)] *)
Definition apply_fix_to_warning (fx : PylintFix) (wn : warning) : M unit :=
  let file_path := target_path wn in
  let* ok := check_python_file file_path in
  if ok : bool then
    let* (code, line_start, line_end) :=
      extract_code_from_context file_path (line_number wn) (context fx) in
    let* new_code := anthropic_request (error_message wn) code (prompt fx) in
    let indented_new_code :=
      add_indentation new_code (get_starting_indentation code) in
    replace_code_in_file file_path indented_new_code line_start line_end >>
    let* ok' := check_python_file file_path in
    assert ok'
  else ret tt.

(** The inner loop of [auto_fix]: the first fix of the catalog with the
    warning's code is applied, a warning with no fix is passed over. *)
Definition dispatch (fixes : list PylintFix) (wn : warning) : M unit :=
  match List.find (fun fx => String.eqb (code fx) (error_code wn)) fixes with
  | Some fx => apply_fix_to_warning fx wn
  | None => ret tt
  end.

(** [for warning in reversed(warnings): ...] of [auto_fix]. *)
Definition fix_warnings (warnings : list warning) : M unit :=
  for_each (rev warnings) (dispatch PYLINT_FIXES).

End Engine.

(** [parse_pylint_warnings]: the body of the loop for one line of the
    report, with the list built so far. *)
Definition parse_line (line : string) (pylint_warnings : list warning)
  : M (list warning) :=
  let parts := Py.split ":" (Py.strip line) in
  if (5 <=? Z.of_nat (length parts)) then
    try_except
      (match Py.int (nth 1 parts EmptyString) with
       | Some n =>
           ret (pylint_warnings ++
                [ {| file_path := Py.strip (nth 0 parts EmptyString);
                     line_number := n;
                     character := Py.strip (nth 2 parts EmptyString);
                     error_code := Py.strip (nth 3 parts EmptyString);
                     error_message := Py.strip (nth 4 parts EmptyString) |} ])
       | None => raise ValueError
       end)
      [ (fun e => isinstance e ValueError,
         fun _ => logging WARNING (SkippingLine line) >> ret pylint_warnings) ]
  else ret pylint_warnings.

Fixpoint parse_lines (lines : list string) (pylint_warnings : list warning)
  : M (list warning) :=
  match lines with
  | [] => ret pylint_warnings
  | line :: rest =>
      let* acc := parse_line line pylint_warnings in
      parse_lines rest acc
  end.

(** [parse_pylint_warnings(file_path)]: the loop runs over the lines as
    they are decoded, so that the lines handed out before a decoding error
    have been handled, and their skips logged, when the error ends it. *)
Definition parse_pylint_warnings (file_path : string) : M (list warning) :=
  let* (lines, stop) := open_lines file_path in
  let* pylint_warnings := parse_lines lines [] in
  match stop with
  | Some e => raise e
  | None => ret pylint_warnings
  end.

(* ===================================================================== *)
(** ** Notions used in the statements *)
(* ===================================================================== *)

(** A line is blank when nothing is left of it after [strip()]. *)
Definition nonblank (line : string) : bool := Py.truthy (Py.strip line).

(** The number of characters at the start of a line that satisfy [p]. *)
Fixpoint leading (p : ascii -> bool) (line : string) : nat :=
  match line with
  | String c s' => if p c then S (leading p s') else O
  | EmptyString => O
  end.

Definition is_blank_char (c : ascii) : bool := Ascii.eqb c " ".

(** The leading spaces, and the leading white space, of a line. *)
Definition leading_spaces (line : string) : nat := leading is_blank_char line.
Definition leading_whitespace (line : string) : nat := leading Py.is_space line.

(** A string made of white space only. *)
Fixpoint all_space (s : string) : bool :=
  match s with
  | String c s' => Py.is_space c && all_space s'
  | EmptyString => true
  end.

(** [s] starts with a block that the pattern of [anthropic_request]
    matches, with [body] as its group: the opener, white space, the body,
    white space, the closing fence. *)
Definition python_block_at (s body : string) : Prop :=
  exists ws1 ws2 post,
    s = Re.opener +:+ ws1 +:+ body +:+ ws2 +:+ Re.fence +:+ post /\
    all_space ws1 = true /\ ws1 <> EmptyString /\
    all_space ws2 = true /\ ws2 <> EmptyString.

Definition has_python_block (text : string) : Prop :=
  exists pre s body, text = pre +:+ s /\ python_block_at s body.

(** The nodes at nesting depth [d] below the nodes of a forest. *)
Fixpoint level (d : nat) (forest : list Ast.node) : list Ast.node :=
  match d with
  | O => forest
  | S d' => level d' (flat_map Ast.children forest)
  end.

(** Non-decreasing and non-increasing sequences of line numbers. *)
Definition ascending (l : list Z) : Prop := Sorted Z.le l.
Definition descending (l : list Z) : Prop := Sorted (flip Z.le) l.

(** *** The claims as the specification words them *)

(** The innermost function definition whose lines contain [line_number]:
    one that contains the line while none of the definitions nested in it
    does. *)
Fixpoint spec_innermost (line_number : Z) (n : Ast.node) : option Ast.node :=
  match n with
  | Ast.Node _ _ _ cs =>
      match (fix first (l : list Ast.node) : option Ast.node :=
               match l with
               | [] => None
               | c :: l' =>
                   match spec_innermost line_number c with
                   | Some m => Some m
                   | None => first l'
                   end
               end) cs with
      | Some m => Some m
      | None => if contains_line line_number n then Some n else None
      end
  end.

(** Re-indentation as the specification words it: the indentation of the
    first non-blank line of the replacement is stripped to zero, then every
    non-blank line is prefixed with as many spaces as the first non-blank
    line of the original span has leading spaces. *)
Fixpoint spec_strip_first (lines : list string) : list string :=
  match lines with
  | [] => []
  | l :: rest =>
      if nonblank l then Py.lstrip l :: rest else l :: spec_strip_first rest
  end.

Definition spec_width (original : string) : nat :=
  match List.find nonblank (Py.split Py.newline original) with
  | Some l => leading_spaces l
  | None => O
  end.

Definition spec_reindent_lines (replacement original : string) : list string :=
  map (fun l => if nonblank l
                then Py.repeat_nat (spec_width original) " " +:+ l else l)
      (spec_strip_first (Py.split Py.newline replacement)).

(** The first occurrence of [needle] in [s]: what is before it and what is
    after it. *)
Fixpoint starts_with (p s : string) : option string :=
  match p with
  | EmptyString => Some s
  | String a p' =>
      match s with
      | String c s' => if Ascii.eqb a c then starts_with p' s' else None
      | EmptyString => None
      end
  end.

Fixpoint find_sub (needle s : string) : option (string * string) :=
  match starts_with needle s with
  | Some rest => Some (EmptyString, rest)
  | None =>
      match s with
      | String c s' =>
          match find_sub needle s' with
          | Some (before, rest) => Some (String c before, rest)
          | None => None
          end
      | EmptyString => None
      end
  end.

Fixpoint after_line (s : string) : string :=
  match s with
  | String c s' => if Ascii.eqb c Py.newline then s' else after_line s'
  | EmptyString => EmptyString
  end.

(** The content of the first fenced block of a text: the lines between the
    line of the first fence, whatever tag follows it, and the next fence. *)
Definition spec_first_fenced_block (text : string) : option string :=
  match find_sub Re.fence text with
  | Some (_, rest) =>
      match find_sub Re.fence (after_line rest) with
      | Some (content, _) => Some content
      | None => None
      end
  | None => None
  end.

(** *** Scenarios *)

(** Collaborators given by tables: the texts that compile, the tree of each
    text that parses, the replies of the suggester in the order of the
    calls. *)
Definition compiles_only (good : list string) (s : string) : option exn :=
  if bool_decide (s ∈ good) then None else Some SyntaxError.

Definition parses_as (table : list (string * Ast.node)) (s : string)
  : outcome Ast.node :=
  match List.find (fun p => String.eqb (fst p) s) table with
  | Some (_, tree) => Ok tree
  | None => Raise SyntaxError
  end.

Definition replies (script : list string) (before : list api_request)
    (_ : api_request) : outcome string :=
  match script !! length before with
  | Some r => Ok r
  | None => Raise APIError
  end.

Definition fresh (fs : gmap string disk_file) : world :=
  {| files := fs; api_calls := []; log := [] |}.

(** A file of fifty lines and a warning on its line 999. *)
Definition fifty_lines : string := Py.repeat_nat 50 ("x = 1" +:+ Py.nl).

Definition warning_999 : warning :=
  {| file_path := "a.py"; line_number := 999; character := "0";
     error_code := "C1803"; error_message := "m" |}.

(** A function nested in another, and the tree [ast.parse] builds for it. *)
Definition nested_source : string :=
  "def outer():" +:+ Py.nl +:+
  "    def inner():" +:+ Py.nl +:+
  "        return 1" +:+ Py.nl +:+
  "    return inner" +:+ Py.nl.

Definition inner_def : Ast.node :=
  Ast.Node Ast.FunctionDef 2 3
    [ Ast.Node Ast.OtherNode 0 0 [];
      Ast.Node Ast.OtherNode 3 3 [Ast.Node Ast.OtherNode 3 3 []] ].

Definition outer_def : Ast.node :=
  Ast.Node Ast.FunctionDef 1 4
    [ Ast.Node Ast.OtherNode 0 0 [];
      inner_def;
      Ast.Node Ast.OtherNode 4 4
        [Ast.Node Ast.OtherNode 4 4 [Ast.Node Ast.OtherNode 0 0 []]] ].

Definition nested_tree : Ast.node := Ast.Node Ast.ModuleNode 0 0 [outer_def].

(** A comparison with an empty list, and a reply that forgets the colon. *)
Definition compare_source : string :=
  "x = []" +:+ Py.nl +:+ "if x == []:" +:+ Py.nl +:+ "    pass" +:+ Py.nl.

Definition broken_source : string :=
  "x = []" +:+ Py.nl +:+ "if not x" +:+ Py.nl +:+ "    pass" +:+ Py.nl.

Definition warning_compare : warning :=
  {| file_path := "a.py"; line_number := 2; character := "3";
     error_code := "C1803"; error_message := "m" |}.

(** Two warnings reported with the later line first; the reply to the
    warning of line 1 has two lines. *)
Definition two_source : string :=
  "if a == []: a = [0]" +:+ Py.nl +:+ "b = 2" +:+ Py.nl +:+
  "if b == []: b = [0]" +:+ Py.nl.

Definition two_source_1 : string :=
  "if not a:" +:+ Py.nl +:+ "    a = [0]" +:+ Py.nl +:+ "b = 2" +:+ Py.nl +:+
  "if b == []: b = [0]" +:+ Py.nl.

Definition warning_line (n : Z) : warning :=
  {| file_path := "a.py"; line_number := n; character := "3";
     error_code := "C1803"; error_message := "m" |}.

Definition two_replies : list string :=
  [ "if not a:" +:+ Py.nl +:+ "    a = [0]"; "b = 2" ].

(** A report of three lines. *)
Definition report_three : string :=
  "************* Module a" +:+ Py.nl +:+
  "a.py:3:0: C0114: Missing: docstring (x)" +:+ Py.nl +:+
  "a.py:x:0: C0114: Missing" +:+ Py.nl.

(** A reply whose block carries no language tag. *)
Definition untagged_reply : string :=
  "Here is the fix:" +:+ Py.nl +:+ Re.fence +:+ Py.nl +:+ "x = 1" +:+ Py.nl
  +:+ Re.fence +:+ Py.nl.

Definition tagged_reply : string :=
  "Here is the fix:" +:+ Py.nl +:+ Re.opener +:+ Py.nl +:+ "x = 1" +:+ Py.nl
  +:+ Re.fence +:+ Py.nl.

(** The fields of a line of the report, the record the parser builds for a
    line it accepts, and the lines it logs a warning for. *)
Definition report_fields (line : string) : list string :=
  Py.split ":" (Py.strip line).

Definition accepted (line : string) : option warning :=
  let parts := report_fields line in
  if (5 <=? length parts)%nat then
    match Py.int (nth 1 parts EmptyString) with
    | Some n =>
        Some {| file_path := Py.strip (nth 0 parts EmptyString);
                line_number := n;
                character := Py.strip (nth 2 parts EmptyString);
                error_code := Py.strip (nth 3 parts EmptyString);
                error_message := Py.strip (nth 4 parts EmptyString) |}
    | None => None
    end
  else None.

Definition logged_skip (line : string) : bool :=
  let parts := report_fields line in
  (5 <=? length parts)%nat &&
  match Py.int (nth 1 parts EmptyString) with Some _ => false | None => true end.

Definition skip_record (line : string) : log_level * log_msg :=
  (WARNING, SkippingLine line).

(** The world after several more log records. *)
Definition add_logs (w : world) (entries : list (log_level * log_msg)) : world :=
  {| files := files w; api_calls := api_calls w; log := log w ++ entries |}.

(** A step that leaves the disk and the list of suggester calls as they
    were. *)
Definition quiet {A} (m : M A) : Prop :=
  forall w r w', m w = (r, w') ->
                 files w' = files w /\ api_calls w' = api_calls w.

(** Whether a character occurs in a string. *)
Fixpoint has_char (c : ascii) (s : string) : bool :=
  match s with
  | String d s' => Ascii.eqb d c || has_char c s'
  | EmptyString => false
  end.

(** A line with its terminator: no newline but the last character. *)
Definition complete_line (l : string) : Prop :=
  exists body, l = body +:+ Py.nl /\ has_char Py.newline body = false.

Definition carriage_return : ascii := ascii_of_nat 13.

(** The file at [path] holds text that compiles. *)
Definition compiles (py_compile : string -> option exn) (w : world)
    (path : string) : Prop :=
  exists s, files w !! path = Some (Text s) /\
            py_compile (Py.universal_newlines s) = None.

(** The number of occurrences of a character in a string. *)
Fixpoint count_char (c : ascii) (s : string) : nat :=
  match s with
  | String d s' => ((if Ascii.eqb d c then 1 else 0) + count_char c s')%nat
  | EmptyString => O
  end.

(** *** The rest of [fixes/fixes.py] *)

(** [fetch_repositories], after [csv.reader] has cut the file into rows:
    the first row is dropped by [next], which raises [StopIteration] when
    there is none ([None] here); the cells of every other row are joined
    and stripped, and the names that are not empty are kept. *)
Fixpoint project_names (rows : list (list string)) : list string :=
  match rows with
  | [] => []
  | row :: rest =>
      let project_name := Py.strip (Py.join EmptyString row) in
      if Py.truthy project_name then project_name :: project_names rest
      else project_names rest
  end.

Definition fetch_repositories (rows : list (list string))
  : option (list string) :=
  match rows with
  | [] => None
  | _ :: rest => Some (project_names rest)
  end.

(** The unpacking [creator, project_name = map(str.strip, repo.split('/'))]
    of [auto_fix] and the path built from it; [None] stands for the
    [ValueError] of an unpacking with too few or too many values.
    [dataset] is the text of [f"{engagement}_{dataset_index}"]. *)
Definition repo_path (dataset repo : string) : option string :=
  match map Py.strip (Py.split "/" repo) with
  | [creator; project_name] =>
      Some ("./repos/" +:+ dataset +:+ "/" +:+ creator +:+ "_" +:+ project_name)
  | _ => None
  end.

(** A step whose every run, whatever its outcome, relates the world before
    it to the world after it by [R]. *)
Definition keeps {A} (R : world -> world -> Prop) (m : M A) : Prop :=
  forall w r w', m w = (r, w') -> R w w'.

(** The files outside [P] are the same in both worlds. *)
Definition same_outside (P : string -> Prop) (w w' : world) : Prop :=
  forall p, ~ P p -> files w' !! p = files w !! p.

(** The second world has the suggester calls of the first, followed by at
    most [n] more. *)
Definition calls_grow (n : nat) (w w' : world) : Prop :=
  exists new, api_calls w' = api_calls w ++ new /\ (length new <= n)%nat.

(** A coroutine, and the tree [ast.parse] builds for it. *)
Definition async_source : string :=
  "async def f():" +:+ Py.nl +:+ "    return 1" +:+ Py.nl.

Definition async_tree : Ast.node :=
  Ast.Node Ast.ModuleNode 0 0
    [ Ast.Node Ast.AsyncFunctionDef 1 2
        [ Ast.Node Ast.OtherNode 0 0 [];
          Ast.Node Ast.OtherNode 2 2 [Ast.Node Ast.OtherNode 2 2 []] ] ].

(** A disk with two files. *)
Definition two_files : gmap string disk_file :=
  {[ "./a.py" := Text compare_source; "./b.py" := Text two_source ]}.

(** One way to cut a text into the parts of the pattern of
    [anthropic_request]: the opener, white space, a body, white space, the
    closing fence, and what is left. *)
Definition block_split (s ws1 body ws2 post : string) : Prop :=
  s = Re.opener +:+ ws1 +:+ body +:+ ws2 +:+ Re.fence +:+ post /\
  all_space ws1 = true /\ ws1 <> EmptyString /\
  all_space ws2 = true /\ ws2 <> EmptyString.

(** Group 1 of the match of the pattern at the start of [s]: among the
    ways to cut [s], the body of the one with the longest first white
    space, [\s+] being greedy, and for that white space the shortest body,
    [(.*?)] being lazy: the body ends at the first closing fence that
    white space precedes. *)
Definition first_group (s r : string) : Prop :=
  exists ws1 ws2 post,
    block_split s ws1 r ws2 post /\
    forall ws1' body' ws2' post',
      block_split s ws1' body' ws2' post' ->
      (String.length ws1' < String.length ws1)%nat \/
      (String.length ws1' = String.length ws1 /\
       (String.length r <= String.length body')%nat).

(** A report in ascending order on the file of three lines, the replies
    in the order of the calls, and the file after the first and after the
    last patch. *)
Definition sorted_replies : list string :=
  [ "if not b:" +:+ Py.nl +:+ "    b = [0]";
    "b = 2";
    "if not a:" +:+ Py.nl +:+ "    a = [0]" ].

Definition two_source_3 : string :=
  "if a == []: a = [0]" +:+ Py.nl +:+ "b = 2" +:+ Py.nl +:+
  "if not b:" +:+ Py.nl +:+ "    b = [0]" +:+ Py.nl.

Definition two_source_31 : string :=
  "if not a:" +:+ Py.nl +:+ "    a = [0]" +:+ Py.nl +:+ "b = 2" +:+ Py.nl +:+
  "if not b:" +:+ Py.nl +:+ "    b = [0]" +:+ Py.nl.

(** A reply with two blocks. *)
Definition two_block_reply : string :=
  "First " +:+ Re.opener +:+ Py.nl +:+ "x = 1" +:+ Py.nl +:+ Re.fence +:+ Py.nl
  +:+ "then" +:+ Py.nl
  +:+ Re.opener +:+ Py.nl +:+ "y = 2" +:+ Py.nl +:+ Re.fence +:+ Py.nl.

(** A field of a record of the report: no colon in it, no white space
    around it. *)
Definition clean_field (s : string) : Prop :=
  has_char ":" s = false /\ Py.strip s = s.

(* ===================================================================== *)
(** ** Facts about strings and lines *)
(* ===================================================================== *)

Section StringFacts.

Lemma sapp_nil_l s : EmptyString +:+ s = s.
Proof. reflexivity. Qed.

Lemma sapp_cons c s t : String c s +:+ t = String c (s +:+ t).
Proof. reflexivity. Qed.

Lemma sapp_nil_r s : s +:+ EmptyString = s.
Proof. induction s as [|c s IH]; [reflexivity|]. now rewrite sapp_cons, IH. Qed.

Lemma sapp_assoc s t u : (s +:+ t) +:+ u = s +:+ (t +:+ u).
Proof.
  induction s as [|c s IH]; [reflexivity|]. now rewrite !sapp_cons, IH.
Qed.

Lemma split_not_nil sep s : Py.split sep s <> [].
Proof.
  destruct s as [|c s]; simpl; [discriminate|].
  destruct (Ascii.eqb c sep); [discriminate|].
  destruct (Py.split sep s); discriminate.
Qed.

(** No line of a split contains the separator. *)
Lemma split_no_sep sep s :
  Forall (fun l => has_char sep l = false) (Py.split sep s).
Proof.
  induction s as [|c s IH]; simpl.
  - repeat constructor.
  - destruct (Ascii.eqb c sep) eqn:Hc.
    + constructor; [reflexivity | exact IH].
    + destruct (Py.split sep s) as [|x xs]; [repeat constructor; simpl; now rewrite Hc|].
      inversion IH as [|? ? Hx Hxs]; subst.
      constructor; [simpl; now rewrite Hc, Hx | exact Hxs].
Qed.

Lemma split_no_sep_whole sep x :
  has_char sep x = false -> Py.split sep x = [x].
Proof.
  induction x as [|c x IH]; simpl; [reflexivity|].
  intros H. apply orb_false_iff in H as [Hc Hx].
  rewrite Hc, (IH Hx). reflexivity.
Qed.

Lemma split_app_sep sep x rest :
  has_char sep x = false ->
  Py.split sep (x +:+ String sep rest) = x :: Py.split sep rest.
Proof.
  induction x as [|c x IH]; intros H.
  - rewrite sapp_nil_l. simpl. now rewrite Ascii.eqb_refl.
  - simpl in H. apply orb_false_iff in H as [Hc Hx].
    rewrite sapp_cons. simpl. rewrite Hc, (IH Hx). reflexivity.
Qed.

Lemma split_join sep ls :
  ls <> [] -> Forall (fun l => has_char sep l = false) ls ->
  Py.split sep (Py.join (String sep EmptyString) ls) = ls.
Proof.
  induction ls as [|x ls IH]; intros Hne Hall; [congruence|].
  inversion Hall as [|? ? Hx Hls]; subst.
  destruct ls as [|y ls].
  - simpl. now apply split_no_sep_whole.
  - change (Py.join (String sep EmptyString) (x :: y :: ls))
      with (x +:+ String sep EmptyString
              +:+ Py.join (String sep EmptyString) (y :: ls)).
    rewrite sapp_cons, sapp_nil_l, (split_app_sep _ _ _ Hx).
    f_equal. apply IH; [discriminate | exact Hls].
Qed.

Lemma split_snoc_sep sep s :
  Py.split sep (s +:+ String sep EmptyString) = Py.split sep s ++ [EmptyString].
Proof.
  induction s as [|c s IH].
  - rewrite sapp_nil_l. simpl. now rewrite Ascii.eqb_refl.
  - rewrite sapp_cons. simpl. rewrite IH.
    destruct (Ascii.eqb c sep); [reflexivity|].
    destruct (Py.split sep s) as [|x xs] eqn:E; [now apply split_not_nil in E|].
    reflexivity.
Qed.

Lemma has_char_app c s t :
  has_char c (s +:+ t) = has_char c s || has_char c t.
Proof.
  induction s as [|d s IH]; [reflexivity|].
  rewrite sapp_cons. simpl. rewrite IH. now rewrite orb_assoc.
Qed.

Lemma has_char_repeat c n d :
  Ascii.eqb d c = false ->
  has_char c (Py.repeat_nat n (String d EmptyString)) = false.
Proof.
  intros H. induction n as [|n IH]; [reflexivity|].
  cbn [Py.repeat_nat]. rewrite sapp_cons, sapp_nil_l.
  cbn [has_char]. now rewrite H, IH.
Qed.

Lemma leading_repeat n line :
  leading_spaces (Py.repeat_nat n " " +:+ line) = (n + leading_spaces line)%nat.
Proof.
  induction n as [|n IH]; [reflexivity|].
  cbn [Py.repeat_nat]. rewrite sapp_cons, sapp_nil_l, sapp_cons.
  unfold leading_spaces in *. cbn [leading]. now rewrite IH.
Qed.

(** The difference of lengths that [get_starting_indentation] returns is
    the number of leading white-space characters. *)
Lemma len_minus_lstrip line :
  (Py.len line - Py.len (Py.lstrip line))%Z = Z.of_nat (leading_whitespace line).
Proof.
  unfold Py.len, Py.lstrip, leading_whitespace.
  induction line as [|c s IH]; [reflexivity|].
  cbn [Py.lstrip_chars leading]. destruct (Py.is_space c).
  - cbn [String.length]. lia.
  - lia.
Qed.

Lemma first_indentation_find lines :
  first_indentation lines =
  match List.find nonblank lines with
  | Some l => Z.of_nat (leading_whitespace l)
  | None => 0%Z
  end.
Proof.
  induction lines as [|l lines IH]; [reflexivity|].
  cbn [first_indentation List.find]. unfold nonblank at 1.
  destruct (Py.truthy (Py.strip l)); [apply len_minus_lstrip | exact IH].
Qed.

(** The lines of the text that [add_indentation] returns. *)
Lemma add_indentation_lines code w :
  Py.split Py.newline (add_indentation code w) =
  map (fun line => if nonblank line
                   then Py.repeat_nat (Z.to_nat w) " " +:+ line else line)
      (Py.split Py.newline code) ++ [EmptyString].
Proof.
  unfold add_indentation, Py.nl. rewrite split_snoc_sep. f_equal.
  apply split_join.
  - destruct (Py.split Py.newline code) eqn:E; [now apply split_not_nil in E|].
    discriminate.
  - apply Forall_map. eapply Forall_impl; [apply split_no_sep|].
    intros l Hl. cbn beta. unfold nonblank. destruct (Py.truthy (Py.strip l)); [|exact Hl].
    rewrite has_char_app, Hl. unfold Py.mul.
    rewrite has_char_repeat; reflexivity.
Qed.

End StringFacts.

(* ===================================================================== *)
(** ** Re-indentation: [add_indentation] and [get_starting_indentation] *)
(* ===================================================================== *)

(** C3, as the specification words it, fails: a replacement of one line
    that arrives with two leading spaces, for a span indented by four,
    comes out with six leading spaces, where stripping its indentation
    first would give four. *)
Lemma C3_counterexample_no_strip :
  Py.split Py.newline
    (add_indentation "  x = 1" (get_starting_indentation "    y = 0"))
    = ["      x = 1"; EmptyString] /\
  spec_reindent_lines "  x = 1" "    y = 0" = ["    x = 1"] /\
  head (Py.split Py.newline
          (add_indentation "  x = 1" (get_starting_indentation "    y = 0")))
    <> head (spec_reindent_lines "  x = 1" "    y = 0").
Proof. repeat split; vm_compute; congruence. Qed.

(** C3, amended: the lines of the re-indented text are the lines of the
    replacement, each non-blank one prefixed with [w] spaces and nothing
    stripped from it, each blank one verbatim, followed by one empty line
    (the text ends with a newline); [w] is the number of leading
    white-space characters of the first non-blank line of the original
    span, and 0 when the span has no such line. *)
Theorem C3_reindent_prefixes_only (code original : string) :
  let w := get_starting_indentation original in
  Py.split Py.newline (add_indentation code w) =
    map (fun line => if nonblank line
                     then Py.repeat_nat (Z.to_nat w) " " +:+ line else line)
        (Py.split Py.newline code) ++ [EmptyString]
  /\ w = match List.find nonblank (Py.split Py.newline original) with
         | Some l => Z.of_nat (leading_whitespace l)
         | None => 0
         end.
Proof.
  cbv zeta. split.
  - apply add_indentation_lines.
  - apply first_indentation_find.
Qed.

(** C8: every non-blank line of the text returned by [add_indentation]
    for a width [w] starts with at least [w] spaces. *)
Theorem C8_nonblank_lines_indented (code : string) (w : Z) (line : string) :
  line ∈ Py.split Py.newline (add_indentation code w) ->
  nonblank line = true ->
  w <= Z.of_nat (leading_spaces line).
Proof.
  rewrite add_indentation_lines. intros Hin Hnb.
  apply elem_of_app in Hin as [Hin | Hin].
  - apply list_elem_of_fmap in Hin as [l [-> _]].
    destruct (nonblank l) eqn:El.
    + rewrite leading_repeat. lia.
    + congruence.
  - apply list_elem_of_singleton in Hin. subst line. discriminate.
Qed.

(** C8 on a replacement of one line and a width of four. *)
Lemma C8_witness :
  "    x = 1" ∈ Py.split Py.newline (add_indentation "x = 1" 4) /\
  4 <= Z.of_nat (leading_spaces "    x = 1").
Proof.
  assert (H : "    x = 1" ∈ Py.split Py.newline (add_indentation "x = 1" 4)).
  { vm_compute. apply list_elem_of_here. }
  split; [exact H|].
  apply (C8_nonblank_lines_indented "x = 1" 4 "    x = 1" H). reflexivity.
Defined.

(* ===================================================================== *)
(** ** The validator and the parser of the report *)
(* ===================================================================== *)

Section ValidatorFacts.
Variable py_compile : string -> option exn.

(** What [check_python_file] returns and logs, case by case. *)
Lemma check_python_file_run path w :
  check_python_file py_compile path w =
  match files w !! path with
  | Some (Text s) =>
      match py_compile (Py.universal_newlines s) with
      | None => (Ok true, add_log w (INFO, SyntacticallyCorrect path))
      | Some e =>
          (Ok false,
           add_log w (ERROR,
                      if isinstance e SyntaxError || isinstance e TypeError
                      then SyntaxErrorIn path e
                      else UnexpectedErrorIn path e))
      end
  | Some (Undecodable _) =>
      (Ok false, add_log w (ERROR, UnexpectedErrorIn path UnicodeDecodeError))
  | None =>
      (Ok false, add_log w (ERROR, UnexpectedErrorIn path FileNotFoundError))
  end.
Proof.
  unfold check_python_file, try_except, bind, read_text.
  destruct (files w !! path) as [[s|]|]; try reflexivity.
  destruct (py_compile (Py.universal_newlines s)) as [e|]; [|reflexivity].
  destruct e; reflexivity.
Qed.

(** The validator writes nothing and calls nobody. *)
Lemma check_python_file_frame path w r w' :
  check_python_file py_compile path w = (r, w') ->
  files w' = files w /\ api_calls w' = api_calls w.
Proof.
  rewrite check_python_file_run. intros H.
  destruct (files w !! path) as [[s|]|];
    [destruct (py_compile (Py.universal_newlines s))|..];
    inversion H; subst; split; reflexivity.
Qed.

(** C6: for every path and every state of the disk, [check_python_file]
    returns a Boolean and raises nothing; the Boolean is true exactly
    when the file exists, decodes, and its text compiles; the disk is not
    changed. *)
Theorem C6_validator_returns_boolean (path : string) (w : world) :
  exists (b : bool) (w' : world),
    check_python_file py_compile path w = (Ok b, w') /\
    files w' = files w /\
    (b = true <->
     exists s, files w !! path = Some (Text s) /\
               py_compile (Py.universal_newlines s) = None).
Proof.
  rewrite check_python_file_run.
  destruct (files w !! path) as [[s|]|] eqn:Hf.
  - destruct (py_compile (Py.universal_newlines s)) as [e|] eqn:Hc.
    + eexists false, _. split; [reflexivity|]. split; [reflexivity|].
      split; [discriminate|]. intros (s' & Hs' & Hc'). congruence.
    + eexists true, _. split; [reflexivity|]. split; [reflexivity|].
      split; [|reflexivity]. intros _. now exists s.
  - eexists false, _. split; [reflexivity|]. split; [reflexivity|].
    split; [discriminate|]. intros (s' & Hs' & _). discriminate.
  - eexists false, _. split; [reflexivity|]. split; [reflexivity|].
    split; [discriminate|]. intros (s' & Hs' & _). discriminate.
Qed.
End ValidatorFacts.

(** C9, as the specification words it, fails: the header line that the
    analyzer prints before the warnings of a module has no colon, and it is
    passed over without any record being logged. *)
Lemma C9_counterexample_silent_skip :
  let line := "************* Module a" +:+ Py.nl in
  let w := fresh ∅ in
  length (Py.split ":" (Py.strip line)) = 1%nat /\
  parse_line line [] w = (Ok [], w) /\
  log (snd (parse_line line [] w)) = [].
Proof. vm_compute. repeat split; reflexivity. Qed.

Lemma add_logs_nil w : add_logs w [] = w.
Proof. destruct w as [f a l]. unfold add_logs. cbn. now rewrite app_nil_r. Qed.

Lemma add_logs_cons w e es : add_logs (add_log w e) es = add_logs w (e :: es).
Proof. unfold add_logs, add_log. cbn. now rewrite <- app_assoc. Qed.

(** One turn of the loop of [parse_pylint_warnings]. *)
Lemma parse_line_run line acc w :
  parse_line line acc w =
  (Ok (acc ++ option_list (accepted line)),
   if logged_skip line then add_log w (skip_record line) else w).
Proof.
  unfold parse_line, accepted, logged_skip, report_fields.
  destruct (5 <=? length (Py.split ":" (Py.strip line)))%nat eqn:Hlen.
  - apply Nat.leb_le in Hlen.
    replace (5 <=? Z.of_nat (length (Py.split ":" (Py.strip line)))) with true
      by (symmetry; apply Z.leb_le; lia).
    unfold try_except.
    destruct (Py.int (nth 1 (Py.split ":" (Py.strip line)) EmptyString)).
    + reflexivity.
    + cbn. now rewrite app_nil_r.
  - apply Nat.leb_gt in Hlen.
    replace (5 <=? Z.of_nat (length (Py.split ":" (Py.strip line)))) with false
      by (symmetry; apply Z.leb_gt; lia).
    cbn. now rewrite app_nil_r.
Qed.

(** The whole loop: the records of the accepted lines, in the order of the
    report, and one warning in the log for each line of [logged_skip]. *)
Lemma parse_lines_run lines acc w :
  parse_lines lines acc w =
  (Ok (acc ++ omap accepted lines),
   add_logs w (map skip_record (List.filter logged_skip lines))).
Proof.
  revert acc w. induction lines as [|l lines IH]; intros acc w.
  - cbn. now rewrite app_nil_r, add_logs_nil.
  - cbn [parse_lines]. unfold bind. rewrite parse_line_run, IH.
    cbn [omap list_omap List.filter].
    destruct (accepted l) as [r|]; destruct (logged_skip l);
      cbn [option_list map]; rewrite <- ?app_assoc, ?app_nil_r, ?add_logs_cons;
      reflexivity.
Qed.

(** C9, amended: for a report that is read and decodes to its end, a line
    is accepted when, stripped and split on colons, it has at least five
    fields and the second one is an integer for [int] (a literal within the
    limit on the number of digits); its record keeps the first five fields,
    stripped. A line
    with fewer than five fields is passed over and nothing is logged; a
    line with five fields or more whose second field is no integer is
    passed over and one warning is logged for it. No line aborts the parse:
    for a report that can be read, [parse_pylint_warnings] returns the
    records of the accepted lines in the order of the report, and the log
    gains one warning for each line of the second kind. *)
Theorem C9_accepts_five_fields_or_more (path : string) (w : world)
    (text : string) :
  files w !! path = Some (Text text) ->
  let lines := Py.readlines (Py.universal_newlines text) in
  parse_pylint_warnings path w =
    (Ok (omap accepted lines),
     add_logs w (map skip_record (List.filter logged_skip lines)))
  /\ forall line,
       let parts := report_fields line in
       ((length parts < 5)%nat ->
        accepted line = None /\ logged_skip line = false) /\
       ((5 <= length parts)%nat -> Py.int (nth 1 parts EmptyString) = None ->
        accepted line = None /\ logged_skip line = true) /\
       (forall n, (5 <= length parts)%nat ->
                  Py.int (nth 1 parts EmptyString) = Some n ->
                  accepted line =
                    Some {| file_path := Py.strip (nth 0 parts EmptyString);
                            line_number := n;
                            character := Py.strip (nth 2 parts EmptyString);
                            error_code := Py.strip (nth 3 parts EmptyString);
                            error_message := Py.strip (nth 4 parts EmptyString) |}
                  /\ logged_skip line = false).
Proof.
  intros Hf lines. split.
  - unfold parse_pylint_warnings, bind, open_lines. rewrite Hf.
    fold lines. rewrite parse_lines_run. reflexivity.
  - intros line parts. unfold accepted, logged_skip. fold parts.
    split; [|split].
    + intros Hlen. apply Nat.leb_gt in Hlen. rewrite Hlen. now split.
    + intros Hlen Hint. apply Nat.leb_le in Hlen. rewrite Hlen, Hint. now split.
    + intros n Hlen Hint. apply Nat.leb_le in Hlen. rewrite Hlen, Hint.
      now split.
Qed.

(** The amended C9 on a report of three lines: a header, a warning whose
    message has a colon, a line whose second field is no integer. *)
Lemma C9_witness :
  let w := fresh {[ "r.txt" := Text report_three ]} in
  parse_pylint_warnings "r.txt" w =
    (Ok [ {| file_path := "a.py"; line_number := 3; character := "0";
             error_code := "C0114"; error_message := "Missing" |} ],
     add_logs w [ (WARNING,
                   SkippingLine ("a.py:x:0: C0114: Missing" +:+ Py.nl)) ]).
Proof.
  cbv zeta.
  exact (proj1 (C9_accepts_five_fields_or_more "r.txt"
                  (fresh {[ "r.txt" := Text report_three ]}) report_three
                  eq_refl)).
Defined.

(* ===================================================================== *)
(** ** One fix attempt: [apply_fix_to_warning] *)
(* ===================================================================== *)

Section EngineFacts.
Variable py_compile : string -> option exn.
Variable ast_parse : string -> outcome Ast.node.
Variable api_create : list api_request -> api_request -> outcome string.

Lemma quiet_ret {A} (a : A) : quiet (ret a).
Proof. intros w r w' H. inversion H; subst. now split. Qed.

Lemma quiet_raise {A} e : quiet (@raise A e).
Proof. intros w r w' H. inversion H; subst. now split. Qed.

Lemma quiet_logging lvl msg : quiet (logging lvl msg).
Proof. intros w r w' H. inversion H; subst. now split. Qed.

Lemma quiet_read_text path : quiet (read_text path).
Proof.
  intros w r w' H. unfold read_text in H.
  destruct (files w !! path) as [[s|]|]; inversion H; subst; now split.
Qed.

Lemma quiet_bind {A B} (m : M A) (k : A -> M B) :
  quiet m -> (forall a, quiet (k a)) -> quiet (bind m k).
Proof.
  intros Hm Hk w r w' H. unfold bind in H.
  destruct (m w) as [[a|e] w1] eqn:E.
  - destruct (Hm _ _ _ E) as [F1 A1]. destruct (Hk a _ _ _ H) as [F2 A2].
    split; congruence.
  - inversion H; subst. exact (Hm _ _ _ E).
Qed.

Lemma quiet_extract_line path n : quiet (extract_line path n).
Proof.
  unfold extract_line. apply quiet_bind; [apply quiet_read_text|].
  intros text. destruct (Py.index _ _); [apply quiet_ret | apply quiet_raise].
Qed.

Lemma quiet_extract_method path n :
  quiet (extract_method_from_line ast_parse path n).
Proof.
  unfold extract_method_from_line.
  apply quiet_bind; [apply quiet_read_text|]. intros source.
  apply quiet_bind.
  { intros w r w' H. inversion H; subst. now split. }
  intros tree. destruct (find_method tree n).
  - apply quiet_ret.
  - apply quiet_bind; [apply quiet_logging|]. intros _.
    apply quiet_extract_line.
Qed.

Lemma quiet_extract_code path n ctx :
  quiet (extract_code_from_context ast_parse path n ctx).
Proof.
  destruct ctx; cbn [extract_code_from_context];
    try (apply quiet_bind; [apply quiet_logging | intros _; apply quiet_ret]).
  - apply quiet_extract_line.
  - apply quiet_extract_method.
Qed.

Lemma quiet_extract_reply text : quiet (extract_reply text).
Proof.
  unfold extract_reply. apply quiet_bind; [apply quiet_logging|]. intros _.
  destruct (Re.search text);
    (apply quiet_bind; [apply quiet_logging | intros _; apply quiet_ret]).
Qed.

(** The suggester call writes nothing. *)
Lemma anthropic_request_files msg code prompt w r w' :
  anthropic_request api_create msg code prompt w = (r, w') ->
  files w' = files w.
Proof.
  unfold anthropic_request, bind, logging. cbn [add_log files].
  destruct (api_create _ _) as [text|e]; intros H.
  - apply quiet_extract_reply in H as [H _]. rewrite H. reflexivity.
  - inversion H; subst. reflexivity.
Qed.

(** C10: when the file of a warning fails [check_python_file], the fix
    attempt returns at once: the suggester is not called and nothing is
    written, so the disk is as it was. *)
Theorem C10_failed_precheck_no_effect (fx : PylintFix) (wn : warning)
    (w w1 : world) :
  check_python_file py_compile (target_path wn) w = (Ok false, w1) ->
  apply_fix_to_warning py_compile ast_parse api_create fx wn w = (Ok tt, w1)
  /\ files w1 = files w /\ api_calls w1 = api_calls w.
Proof.
  intros Hc. split.
  - unfold apply_fix_to_warning, bind. rewrite Hc. reflexivity.
  - exact (check_python_file_frame _ _ _ _ _ Hc).
Qed.

Lemma index_beyond {A} (l : list A) (i : Z) :
  Z.of_nat (length l) < i -> Py.index l (i - 1) = None.
Proof.
  intros H. unfold Py.index.
  replace (i - 1 <? 0) with false by (symmetry; apply Z.ltb_ge; lia).
  replace (Z.of_nat (length l) <=? i - 1) with true
    by (symmetry; apply Z.leb_le; lia).
  now rewrite orb_true_r.
Qed.

(** C1, amended: for a warning handled at the granularity of a line, or
    of a function when no function definition of the tree contains its
    line, whose line number exceeds the number of lines of a file that
    passes the pre-check, the look-up of the line raises [IndexError];
    the exception leaves [apply_fix_to_warning], which has no handler.
    The suggester is not called and nothing is written. *)
Theorem C1_line_beyond_file_raises (fx : PylintFix) (wn : warning)
    (w : world) (text : string) :
  files w !! target_path wn = Some (Text text) ->
  py_compile (Py.universal_newlines text) = None ->
  Z.of_nat (length (Py.readlines (Py.universal_newlines text)))
    < line_number wn ->
  context fx = LINE \/
    (context fx = METHOD /\
     exists tree, ast_parse (Py.universal_newlines text) = Ok tree /\
                  find_method tree (line_number wn) = None) ->
  exists w',
    apply_fix_to_warning py_compile ast_parse api_create fx wn w
      = (Raise IndexError, w') /\
    files w' = files w /\ api_calls w' = api_calls w.
Proof.
  intros Hf Hc Hlen Hctx.
  unfold apply_fix_to_warning, bind.
  rewrite check_python_file_run, Hf, Hc.
  assert (Hline : forall v, files v = files w ->
            extract_line (target_path wn) (line_number wn) v
              = (Raise IndexError, v)).
  { intros v Hv. unfold extract_line, bind, read_text. rewrite Hv, Hf.
    now rewrite (index_beyond _ _ Hlen). }
  destruct Hctx as [-> | (-> & tree & Hp & Hnone)];
    cbn [extract_code_from_context].
  - rewrite Hline by reflexivity. eexists. repeat split.
  - unfold extract_method_from_line, bind, read_text. cbn [add_log files].
    rewrite Hf, Hp, Hnone. unfold logging. rewrite Hline by reflexivity.
    eexists. repeat split.
Qed.
(** C4, amended: when the pre-check passes, a span is located, the
    suggester replies, and the patched text does not compile, the patched
    text is what the file holds when [apply_fix_to_warning] ends, and the
    attempt ends with [AssertionError]; the content before the patch is
    not restored. *)
Theorem C4_failed_validation_keeps_patch (fx : PylintFix) (wn : warning)
    (w w1 w2 w3 : world) (text code new_code : string)
    (line_start line_end : Z) :
  let path := target_path wn in
  let patched :=
    Py.concat_lines
      (Py.insert
         (Py.del_slice (Py.readlines (Py.universal_newlines text))
                       (line_start - 1) line_end)
         (line_start - 1)
         (add_indentation new_code (get_starting_indentation code))) in
  files w !! path = Some (Text text) ->
  check_python_file py_compile path w = (Ok true, w1) ->
  extract_code_from_context ast_parse path (line_number wn) (context fx) w1
    = (Ok (code, line_start, line_end), w2) ->
  anthropic_request api_create (error_message wn) code (prompt fx) w2
    = (Ok new_code, w3) ->
  py_compile (Py.universal_newlines patched) <> None ->
  exists w',
    apply_fix_to_warning py_compile ast_parse api_create fx wn w
      = (Raise AssertionError, w') /\
    files w' = <[path := Text patched]> (files w).
Proof.
  intros path patched Hf Hck Hex Hrq Hbad.
  destruct (check_python_file_frame _ _ _ _ _ Hck) as [F1 _].
  destruct (quiet_extract_code _ _ _ _ _ _ Hex) as [F2 _].
  pose proof (anthropic_request_files _ _ _ _ _ _ Hrq) as F3.
  assert (F : files w3 = files w) by congruence.
  unfold apply_fix_to_warning, bind. fold path. rewrite Hck, Hex, Hrq.
  unfold replace_code_in_file, bind, read_text. rewrite F, Hf.
  unfold write_lines. rewrite check_python_file_run. cbn [files].
  rewrite lookup_insert_eq. fold patched.
  destruct (py_compile (Py.universal_newlines patched)) as [e|];
    [|congruence].
  eexists. split; [reflexivity|]. cbn [add_log files]. now rewrite F.
Qed.

Lemma bind_assoc {A B C} (m : M A) (k : A -> M B) (h : B -> M C) w :
  bind (bind m k) h w = bind m (fun a => bind (k a) h) w.
Proof.
  unfold bind. destruct (m w) as [[a|e] w1]; reflexivity.
Qed.

Lemma for_each_app {A} (xs ys : list A) (body : A -> M unit) w :
  for_each (xs ++ ys) body w = (for_each xs body >> for_each ys body) w.
Proof.
  revert w. induction xs as [|x xs IH]; intros w.
  - reflexivity.
  - cbn [app for_each]. unfold bind.
    destruct (body x w) as [[[]|e] w1]; [|reflexivity].
    rewrite IH. reflexivity.
Qed.

(** C5, amended: the warnings are handled in the reverse of the order of
    the report, whatever their line numbers and without sorting: for every
    report and every place of a warning in it, the warnings after it are
    handled first, then the warning itself, then the warnings before it,
    and an empty report does nothing. When the report lists the warnings by
    non-decreasing line number, the order of handling is therefore by
    non-increasing line number: every warning handled before a given one
    has a line number at least as large, every warning handled after it one
    at most as large. *)
Theorem C5_reverse_of_report_order (ws1 ws2 : list warning) (wn : warning)
    (w : world) :
  fix_warnings py_compile ast_parse api_create [] w = (Ok tt, w)
  /\ fix_warnings py_compile ast_parse api_create (ws1 ++ wn :: ws2) w =
       (fix_warnings py_compile ast_parse api_create ws2 >>
        dispatch py_compile ast_parse api_create PYLINT_FIXES wn >>
        fix_warnings py_compile ast_parse api_create ws1) w
  /\ (ascending (map line_number (ws1 ++ wn :: ws2)) ->
      Forall (fun later => line_number wn <= line_number later) ws2
      /\ Forall (fun earlier => line_number earlier <= line_number wn) ws1
      /\ descending (map line_number (rev (ws1 ++ wn :: ws2)))).
Proof.
  split; [reflexivity|]. split.
  - unfold fix_warnings. rewrite rev_app_distr. cbn [rev].
    rewrite <- app_assoc, for_each_app. cbn [app for_each].
    rewrite bind_assoc. reflexivity.
  - intros Hs. split; [|split].
    + apply Sorted_StronglySorted in Hs; [|apply _].
      rewrite map_app in Hs. apply StronglySorted_app_1_r in Hs.
      cbn [map] in Hs. apply StronglySorted_cons in Hs as [Hall _].
      exact (proj1 (Forall_map line_number (Z.le (line_number wn)) ws2) Hall).
    + apply Sorted_StronglySorted in Hs; [|apply _].
      rewrite map_app in Hs. apply Forall_forall. intros x Hx.
      refine (StronglySorted_app_1_elem_of _ _ _ _ _ Hs _ _).
      * apply list_elem_of_fmap. now exists x.
      * cbn [map]. apply list_elem_of_here.
    + unfold descending. rewrite map_rev, rev_alt.
      apply (Sorted_reverse Z.le). exact Hs.
Qed.
End EngineFacts.

(* ===================================================================== *)
(** ** The reply of the suggester: [re.search] and [anthropic_request] *)
(* ===================================================================== *)

Section MatcherFacts.
Context {R : Type}.

Lemma lit_sound p (k : string -> option R) s r :
  Re.lit p k s = Some r -> exists rest, s = p +:+ rest /\ k rest = Some r.
Proof.
  revert s. induction p as [|a p IH]; intros s H.
  - exists s. split; [reflexivity | exact H].
  - destruct s as [|c s]; [discriminate|]. cbn [Re.lit] in H.
    destruct (Ascii.eqb a c) eqn:E; [|discriminate].
    apply Ascii.eqb_eq in E. subst c.
    destruct (IH _ H) as (rest & -> & Hk).
    exists rest. split; [reflexivity | exact Hk].
Qed.

Lemma lit_complete p (k : string -> option R) rest :
  Re.lit p k (p +:+ rest) = k rest.
Proof.
  induction p as [|a p IH]; [reflexivity|].
  rewrite sapp_cons. cbn [Re.lit]. now rewrite Ascii.eqb_refl.
Qed.

Lemma spaces_sound (k : string -> option R) s r :
  Re.spaces k s = Some r ->
  exists ws rest, s = ws +:+ rest /\ all_space ws = true /\
                  ws <> EmptyString /\ k rest = Some r.
Proof.
  revert r. induction s as [|c s IH]; intros r H; [discriminate|].
  cbn [Re.spaces] in H. destruct (Py.is_space c) eqn:Hc; [|discriminate].
  destruct (Re.spaces k s) as [r'|] eqn:E.
  - inversion H; subst r'.
    destruct (IH r eq_refl) as (ws & rest & -> & Hws & _ & Hk).
    exists (String c ws), rest. repeat split; try assumption.
    + cbn [all_space]. now rewrite Hc, Hws.
    + discriminate.
  - exists (String c EmptyString), s. repeat split; try assumption.
    + cbn [all_space]. now rewrite Hc.
    + discriminate.
Qed.

Lemma spaces_complete (k : string -> option R) ws rest :
  all_space ws = true -> ws <> EmptyString -> is_Some (k rest) ->
  is_Some (Re.spaces k (ws +:+ rest)).
Proof.
  induction ws as [|c ws IH]; intros Hws Hne Hk; [congruence|].
  cbn [all_space] in Hws. apply andb_true_iff in Hws as [Hc Hws].
  rewrite sapp_cons. cbn [Re.spaces]. rewrite Hc.
  destruct ws as [|d ws].
  - rewrite sapp_nil_l. destruct (Re.spaces k rest); [eauto | exact Hk].
  - destruct (IH Hws) as [r Hr]; [discriminate | exact Hk |].
    rewrite Hr. eauto.
Qed.

Lemma any_lazy_sound (k : string -> string -> option R) acc s r :
  Re.any_lazy k acc s = Some r ->
  exists body rest, s = body +:+ rest /\ k (acc +:+ body) rest = Some r.
Proof.
  revert acc. induction s as [|c s IH]; intros acc H; cbn [Re.any_lazy] in H.
  - destruct (k acc EmptyString) eqn:E; [|discriminate].
    inversion H; subst. exists EmptyString, EmptyString.
    rewrite (sapp_nil_r acc). split; [reflexivity | exact E].
  - destruct (k acc (String c s)) eqn:E.
    + inversion H; subst. exists EmptyString, (String c s).
      rewrite (sapp_nil_r acc). split; [reflexivity | exact E].
    + destruct (IH _ H) as (body & rest & -> & Hk).
      exists (String c body), rest. split; [reflexivity|].
      now rewrite sapp_assoc in Hk.
Qed.

Lemma any_lazy_complete (k : string -> string -> option R) acc body rest :
  is_Some (k (acc +:+ body) rest) ->
  is_Some (Re.any_lazy k acc (body +:+ rest)).
Proof.
  revert acc. induction body as [|c body IH]; intros acc Hk.
  - rewrite sapp_nil_r in Hk. rewrite sapp_nil_l.
    destruct rest as [|d rest]; cbn [Re.any_lazy];
      destruct Hk as [r ->]; eauto.
  - rewrite sapp_cons. cbn [Re.any_lazy].
    destruct (k acc (String c (body +:+ rest))); [eauto|].
    apply IH. now rewrite sapp_assoc.
Qed.
End MatcherFacts.

(** A match at the start of a text is a block, and a text that starts with
    a block has a match there. *)
Lemma match_here_sound s g : Re.match_here s = Some g -> python_block_at s g.
Proof.
  unfold Re.match_here. intros H.
  apply lit_sound in H as (s1 & -> & H).
  apply spaces_sound in H as (ws1 & s2 & -> & Hws1 & Hne1 & H).
  apply any_lazy_sound in H as (body & s3 & -> & H).
  rewrite sapp_nil_l in H.
  apply spaces_sound in H as (ws2 & s4 & -> & Hws2 & Hne2 & H).
  apply lit_sound in H as (post & -> & H).
  inversion H; subst g.
  exists ws1, ws2, post. repeat split; assumption.
Qed.

Lemma match_here_complete s body :
  python_block_at s body -> is_Some (Re.match_here s).
Proof.
  intros (ws1 & ws2 & post & -> & Hws1 & Hne1 & Hws2 & Hne2).
  unfold Re.match_here. rewrite lit_complete.
  apply spaces_complete; [assumption..|].
  apply any_lazy_complete. rewrite sapp_nil_l.
  apply spaces_complete; [assumption..|].
  rewrite lit_complete. eauto.
Qed.

(** [re.search] returns the match at the first position that has one. *)
Lemma search_sound text g :
  Re.search text = Some g ->
  exists pre s,
    text = pre +:+ s /\ Re.match_here s = Some g /\
    forall pre' s', text = pre' +:+ s' ->
                    (String.length pre' < String.length pre)%nat ->
                    Re.match_here s' = None.
Proof.
  induction text as [|c text IH]; intros H.
  - cbn [Re.search] in H. destruct (Re.match_here EmptyString) eqn:E; [|discriminate].
    inversion H; subst. exists EmptyString, EmptyString.
    repeat split; [exact E|]. intros pre' s' _ Hlt. simpl in Hlt. lia.
  - cbn [Re.search] in H. destruct (Re.match_here (String c text)) eqn:E.
    + inversion H; subst. exists EmptyString, (String c text).
      repeat split; [exact E|]. intros pre' s' _ Hlt. simpl in Hlt. lia.
    + destruct (IH H) as (pre & s & -> & Hm & Hfirst).
      exists (String c pre), s. repeat split; [exact Hm|].
      intros pre' s' Heq Hlt. destruct pre' as [|d pre'].
      * rewrite sapp_nil_l in Heq. subst s'. exact E.
      * rewrite !sapp_cons in Heq. inversion Heq; subst d.
        apply (Hfirst pre' s'); [assumption|]. simpl in Hlt. lia.
Qed.

Lemma search_none text :
  Re.search text = None ->
  forall pre s, text = pre +:+ s -> Re.match_here s = None.
Proof.
  induction text as [|c text IH]; intros H pre s Heq.
  - destruct pre; [|discriminate]. rewrite sapp_nil_l in Heq. subst s.
    cbn [Re.search] in H. destruct (Re.match_here EmptyString); [discriminate|reflexivity].
  - cbn [Re.search] in H. destruct (Re.match_here (String c text)) eqn:E; [discriminate|].
    destruct pre as [|d pre].
    + rewrite sapp_nil_l in Heq. now subst s.
    + rewrite sapp_cons in Heq. inversion Heq; subst d.
      now apply (IH H pre s).
Qed.

Section ReplyFacts.
Variable api_create : list api_request -> api_request -> outcome string.

Lemma anthropic_request_run msg code prompt w text :
  api_create (api_calls w)
    {| req_system := prompt; req_text := msg +:+ Py.nl +:+ code |} = Ok text ->
  exists w',
    anthropic_request api_create msg code prompt w =
      (Ok (match Re.search text with Some g => g | None => text end), w').
Proof.
  intros H. unfold anthropic_request, bind, logging. cbn [add_log api_calls].
  rewrite H. unfold extract_reply, bind, logging.
  destruct (Re.search text); eexists; reflexivity.
Qed.

End ReplyFacts.

(* ===================================================================== *)
(** ** The order of [ast.walk] and [extract_method_from_line] *)
(* ===================================================================== *)

Section WalkFacts.

(** The queue hands out the nodes it holds, then goes on with what it
    held behind them followed by their children. *)
Lemma walk_queue_app q1 q2 :
  Ast.walk_queue (q1 ++ q2) =
  q1 ++ Ast.walk_queue (q2 ++ flat_map Ast.children q1).
Proof.
  revert q2. induction q1 as [|n q1 IH]; intros q2.
  - cbn [app flat_map]. now rewrite app_nil_r.
  - cbn [app flat_map]. rewrite Ast.walk_queue_equation_2.
    rewrite <- app_assoc, IH, <- app_assoc. reflexivity.
Qed.

Lemma forest_size_children q :
  Ast.forest_size q =
  (length q + Ast.forest_size (flat_map Ast.children q))%nat.
Proof.
  induction q as [|n q IH]; [reflexivity|].
  cbn [Ast.forest_size flat_map length].
  rewrite Ast.forest_size_app, Ast.node_size_children, IH. lia.
Qed.

Lemma level_nil d : level d [] = [].
Proof. induction d as [|d IH]; [reflexivity | exact IH]. Qed.

(** The traversal lists the nodes level by level: those of the queue,
    then their children, then the children of these, and so on. *)
Lemma walk_queue_levels n q :
  (Ast.forest_size q <= n)%nat ->
  Ast.walk_queue q = concat (map (fun d => level d q) (seq 0 n)).
Proof.
  revert q. induction n as [|n IH]; intros q Hn.
  - destruct q as [|x q]; [reflexivity|].
    cbn [Ast.forest_size] in Hn. rewrite Ast.node_size_children in Hn. lia.
  - cbn [seq map concat level].
    rewrite <- (app_nil_r q) at 1. rewrite walk_queue_app. cbn [app].
    f_equal. rewrite <- seq_shift, map_map. cbn [level].
    destruct q as [|x q].
    + cbn [flat_map]. rewrite Ast.walk_queue_equation_1.
      clear. generalize 0%nat. induction n as [|n IH]; intros s;
        [reflexivity|]. cbn [seq map concat]. rewrite level_nil. apply IH.
    + apply IH. rewrite forest_size_children in Hn.
      cbn [length] in Hn. lia.
Qed.

Lemma find_app_split {A} (p : A -> bool) l1 l2 :
  List.find p (l1 ++ l2) =
  match List.find p l1 with Some x => Some x | None => List.find p l2 end.
Proof.
  induction l1 as [|a l1 IH]; [reflexivity|].
  cbn [app List.find]. destruct (p a); [reflexivity | exact IH].
Qed.

Lemma find_none_forall {A} (p : A -> bool) l :
  List.find p l = None -> Forall (fun y => p y = false) l.
Proof.
  induction l as [|a l IH]; intros H; [constructor|].
  cbn [List.find] in H. destruct (p a) eqn:E; [discriminate|].
  constructor; [exact E | exact (IH H)].
Qed.

Lemma find_first {A} (p : A -> bool) l x :
  List.find p l = Some x ->
  exists before after,
    l = before ++ x :: after /\ p x = true /\
    Forall (fun y => p y = false) before.
Proof.
  induction l as [|a l IH]; intros H; [discriminate|].
  cbn [List.find] in H. destruct (p a) eqn:E.
  - inversion H; subst. exists [], l. repeat split; [exact E | constructor].
  - destruct (IH H) as (b & c & -> & Hx & Hb).
    exists (a :: b), c. repeat split; [exact Hx|]. now constructor.
Qed.

Lemma find_exists {A} (p : A -> bool) l y :
  y ∈ l -> p y = true -> is_Some (List.find p l).
Proof.
  induction l as [|a l IH]; intros Hin Hy.
  - now apply not_elem_of_nil in Hin.
  - cbn [List.find]. destruct (p a) eqn:E; [eauto|].
    apply elem_of_cons in Hin as [-> | Hin]; [congruence|].
    now apply IH.
Qed.

(** What [find] returns on lists laid end to end lies in one of them, and
    nothing in the lists before that one satisfies the test. *)
Lemma find_concat {A} (p : A -> bool) (f : nat -> list A) x n s :
  List.find p (concat (map f (seq s n))) = Some x ->
  exists d, (s <= d)%nat /\ x ∈ f d /\
    forall d' y, (s <= d' < d)%nat -> y ∈ f d' -> p y = false.
Proof.
  revert s. induction n as [|n IH]; intros s H; [discriminate|].
  cbn [seq map concat] in H. rewrite find_app_split in H.
  destruct (List.find p (f s)) as [y|] eqn:E.
  - inversion H; subst y. exists s. split; [lia|]. split.
    + apply find_some in E as [Hin _]. now apply list_elem_of_In.
    + intros d' y Hd. lia.
  - destruct (IH _ H) as (d & Hd & Hin & Hbefore).
    exists d. split; [lia|]. split; [exact Hin|].
    intros d' y Hd' Hy. destruct (decide (d' = s)) as [->|Hne].
    + apply find_none_forall in E. rewrite Forall_forall in E. now apply E.
    + apply (Hbefore d' y); [lia | exact Hy].
Qed.

Variable ast_parse : string -> outcome Ast.node.

(** C2, amended: when the text of the file parses and some [FunctionDef]
    of the tree contains the line, [extract_method_from_line] returns the
    span of the first such definition in the order of [ast.walk], from
    the line of its [def] to its last line: its text is these lines of
    the source, joined. Since the walk goes level by level, this is a
    definition of least nesting depth, the outermost one: no
    [FunctionDef] at a smaller depth contains the line. Nothing is
    written or logged. *)
Theorem C2_outermost_enclosing_function (path : string) (line_number : Z)
    (w : world) (text : string) (tree : Ast.node) :
  files w !! path = Some (Text text) ->
  ast_parse (Py.universal_newlines text) = Ok tree ->
  (exists m, m ∈ Ast.walk tree /\ contains_line line_number m = true) ->
  exists n d before after,
    extract_method_from_line ast_parse path line_number w =
      (Ok (Py.join Py.nl
             (Py.slice (Py.split Py.newline (Py.universal_newlines text))
                       (Ast.lineno n - 1) (Ast.end_lineno n)),
           Ast.lineno n, Ast.end_lineno n), w) /\
    Ast.is_FunctionDef n = true /\
    Ast.lineno n <= line_number <= Ast.end_lineno n /\
    Ast.walk tree = before ++ n :: after /\
    Forall (fun m => contains_line line_number m = false) before /\
    n ∈ level d [tree] /\
    (forall d' m, (d' < d)%nat -> m ∈ level d' [tree] ->
                  contains_line line_number m = false).
Proof.
  intros Hf Hp (m & Hm & Hc).
  destruct (find_exists _ _ _ Hm Hc) as [n Hn].
  assert (Hfind : find_method tree line_number = Some n) by exact Hn.
  unfold find_method in Hn.
  destruct (find_first _ _ _ Hn) as (before & after & Hw & Hcn & Hb).
  unfold Ast.walk in Hn.
  rewrite (walk_queue_levels (Ast.forest_size [tree])) in Hn by lia.
  apply find_concat in Hn as (d & _ & Hd & Hless).
  exists n, d, before, after.
  unfold contains_line in Hcn.
  apply andb_true_iff in Hcn as [Hcn H3].
  apply andb_true_iff in Hcn as [H1 H2].
  apply Z.leb_le in H2, H3.
  repeat split; try assumption.
  - unfold extract_method_from_line, bind, read_text.
    rewrite Hf, Hp, Hfind. reflexivity.
  - intros d' y Hd' Hy. apply (Hless d' y); [lia | exact Hy].
Qed.

End WalkFacts.

(* ===================================================================== *)
(** ** The claims on concrete runs *)
(* ===================================================================== *)

(** C1, as the specification words it, fails: for a warning on line 999 of
    a file of fifty lines that compiles, the fix attempt does not pass the
    warning over; it raises [IndexError], and so does the loop over the
    warnings of the report. *)
Lemma C1_counterexample_index_error :
  let w := fresh {[ "./a.py" := Text fifty_lines ]} in
  length (Py.readlines (Py.universal_newlines fifty_lines)) = 50%nat /\
  fst (apply_fix_to_warning (compiles_only [fifty_lines]) (parses_as [])
         (replies []) (mkfix "use-implicit-booleaness-not-comparison" "C1803" LINE)
         warning_999 w) = Raise IndexError /\
  fst (fix_warnings (compiles_only [fifty_lines]) (parses_as []) (replies [])
         [warning_999] w) = Raise IndexError.
Proof. vm_compute. repeat split; reflexivity. Qed.

(** The amended C1 on the file of fifty lines. *)
Lemma C1_witness :
  let w := fresh {[ "./a.py" := Text fifty_lines ]} in
  exists w',
    apply_fix_to_warning (compiles_only [fifty_lines]) (parses_as [])
      (replies []) (mkfix "use-implicit-booleaness-not-comparison" "C1803" LINE)
      warning_999 w = (Raise IndexError, w') /\
    files w' = files w /\ api_calls w' = api_calls w.
Proof.
  cbv zeta.
  apply (C1_line_beyond_file_raises (compiles_only [fifty_lines]) (parses_as [])
           (replies []) _ warning_999 _ fifty_lines).
  - vm_compute. reflexivity.
  - vm_compute. reflexivity.
  - vm_compute. reflexivity.
  - left. reflexivity.
Defined.

(** C2, as the specification words it, fails: for a line inside a function
    nested in another, the span returned is that of the outer function,
    lines 1 to 4, and not that of the inner one, lines 2 to 3. *)
Lemma C2_counterexample_outer_function :
  let w := fresh {[ "./a.py" := Text nested_source ]} in
  fst (extract_method_from_line (parses_as [(nested_source, nested_tree)])
         "./a.py" 3 w)
    = Ok ("def outer():" +:+ Py.nl +:+ "    def inner():" +:+ Py.nl +:+
          "        return 1" +:+ Py.nl +:+ "    return inner", 1, 4) /\
  spec_innermost 3 nested_tree = Some inner_def /\
  (Ast.lineno inner_def, Ast.end_lineno inner_def) = (2, 3) /\
  (1, 4) <> (Ast.lineno inner_def, Ast.end_lineno inner_def).
Proof. vm_compute. repeat split; try reflexivity. discriminate. Qed.

(** The amended C2 on the nested functions. *)
Lemma C2_witness :
  let w := fresh {[ "./a.py" := Text nested_source ]} in
  exists n d before after,
    extract_method_from_line (parses_as [(nested_source, nested_tree)])
      "./a.py" 3 w =
      (Ok (Py.join Py.nl
             (Py.slice (Py.split Py.newline (Py.universal_newlines nested_source))
                       (Ast.lineno n - 1) (Ast.end_lineno n)),
           Ast.lineno n, Ast.end_lineno n), w) /\
    Ast.is_FunctionDef n = true /\
    Ast.lineno n <= 3 <= Ast.end_lineno n /\
    Ast.walk nested_tree = before ++ n :: after /\
    Forall (fun m => contains_line 3 m = false) before /\
    n ∈ level d [nested_tree] /\
    (forall d' m, (d' < d)%nat -> m ∈ level d' [nested_tree] ->
                  contains_line 3 m = false).
Proof.
  cbv zeta.
  apply (C2_outermost_enclosing_function
           (parses_as [(nested_source, nested_tree)]) "./a.py" 3 _
           nested_source nested_tree).
  - vm_compute. reflexivity.
  - vm_compute. reflexivity.
  - exists inner_def. split; [|reflexivity].
    vm_compute. do 3 apply list_elem_of_further. apply list_elem_of_here.
Defined.

(** C4, as the specification words it, fails: the reply drops the colon of
    the [if], the patched file does not compile, and when the attempt ends,
    with [AssertionError], the file holds the patched text, not the text it
    had before. *)
Lemma C4_counterexample_broken_file_left :
  let w := fresh {[ "./a.py" := Text compare_source ]} in
  let r := apply_fix_to_warning (compiles_only [compare_source]) (parses_as [])
             (replies ["if not x"])
             (mkfix "use-implicit-booleaness-not-comparison" "C1803" LINE)
             warning_compare w in
  fst r = Raise AssertionError /\
  files (snd r) !! "./a.py" = Some (Text broken_source) /\
  compiles_only [compare_source] broken_source = Some SyntaxError /\
  files (snd r) !! "./a.py" <> files w !! "./a.py".
Proof. vm_compute. repeat split; try reflexivity. discriminate. Qed.

(** The amended C4 on the reply that drops the colon. *)
Lemma C4_witness :
  let pyc := compiles_only [compare_source] in
  let fx := mkfix "use-implicit-booleaness-not-comparison" "C1803" LINE in
  let w := fresh {[ "./a.py" := Text compare_source ]} in
  exists w',
    apply_fix_to_warning pyc (parses_as []) (replies ["if not x"]) fx
      warning_compare w = (Raise AssertionError, w') /\
    files w' = <["./a.py" := Text broken_source]> (files w).
Proof.
  cbv zeta.
  pose (pyc := compiles_only [compare_source]).
  pose (fx := mkfix "use-implicit-booleaness-not-comparison" "C1803" LINE).
  pose (w := fresh {[ "./a.py" := Text compare_source ]}).
  pose (w1 := snd (check_python_file pyc "./a.py" w)).
  pose (w2 := snd (extract_code_from_context (parses_as []) "./a.py" 2 LINE w1)).
  pose (w3 := snd (anthropic_request (replies ["if not x"]) "m"
                     ("if x == []:" +:+ Py.nl) DEFAULT_PROMPT w2)).
  apply (C4_failed_validation_keeps_patch pyc (parses_as [])
           (replies ["if not x"]) fx warning_compare w w1 w2 w3
           compare_source ("if x == []:" +:+ Py.nl) "if not x" 2 2).
  - vm_compute. reflexivity.
  - vm_compute. reflexivity.
  - vm_compute. reflexivity.
  - vm_compute. reflexivity.
  - vm_compute. discriminate.
Defined.

(** C5, as the specification words it, fails: the report lists the warning
    of line 3 before that of line 1; the warning of line 1 is handled
    first, then that of line 3, in ascending order. The patch for line 1
    has two lines, and the code then sent for the warning of line 3 is what
    was line 2 of the file. *)
Lemma C5_counterexample_ascending_order :
  let w := fresh {[ "./a.py" := Text two_source ]} in
  let r := fix_warnings (compiles_only [two_source; two_source_1])
             (parses_as []) (replies two_replies)
             [warning_line 3; warning_line 1] w in
  fst r = Ok tt /\
  map req_text (api_calls (snd r)) =
    [ "m" +:+ Py.nl +:+ "if a == []: a = [0]" +:+ Py.nl;
      "m" +:+ Py.nl +:+ "b = 2" +:+ Py.nl ] /\
  map line_number (rev [warning_line 3; warning_line 1]) = [1; 3] /\
  ~ descending (map line_number (rev [warning_line 3; warning_line 1])).
Proof.
  cbv zeta. split; [vm_compute; reflexivity|].
  split; [vm_compute; reflexivity|].
  split; [reflexivity|].
  intros H. cbn in H. inversion H as [|a l Hs Hd]; subst.
  inversion Hd as [|b l' Hle]; subst. unfold flip in Hle. lia.
Qed.

(** C7, as the specification words it, fails: the reply has a fenced block
    that carries no tag; the engine returns the whole reply, fences and
    prose included, and not the content of the block. *)
Lemma C7_counterexample_untagged_block :
  fst (anthropic_request (replies [untagged_reply]) "m" "c" "p" (fresh ∅))
    = Ok untagged_reply /\
  spec_first_fenced_block untagged_reply = Some ("x = 1" +:+ Py.nl) /\
  Ok untagged_reply <> Ok (A := string) ("x = 1" +:+ Py.nl) /\
  Ok untagged_reply <> Ok (A := string) "x = 1".
Proof. vm_compute. repeat split; try reflexivity; discriminate. Qed.

(** C10 on a file that does not compile. *)
Lemma C10_witness :
  let pyc := compiles_only [] in
  let w := fresh {[ "./a.py" := Text broken_source ]} in
  let w1 := snd (check_python_file pyc "./a.py" w) in
  check_python_file pyc "./a.py" w = (Ok false, w1) /\
  apply_fix_to_warning pyc (parses_as []) (replies [])
    (mkfix "use-implicit-booleaness-not-comparison" "C1803" LINE)
    warning_compare w = (Ok tt, w1) /\
  files w1 = files w /\ api_calls w1 = api_calls w.
Proof.
  cbv zeta.
  assert (H : check_python_file (compiles_only []) (target_path warning_compare)
                (fresh {[ "./a.py" := Text broken_source ]})
              = (Ok false,
                 snd (check_python_file (compiles_only []) "./a.py"
                        (fresh {[ "./a.py" := Text broken_source ]})))).
  { vm_compute. reflexivity. }
  split; [exact H|].
  apply (C10_failed_precheck_no_effect (compiles_only []) (parses_as [])
           (replies []) _ warning_compare _ _ H).
Defined.

(* ===================================================================== *)
(** ** Indices and slices of Python lists *)
(* ===================================================================== *)

Section SliceFacts.
Context {A : Type}.
Implicit Types l : list A.

Lemma clamp_in_range l i :
  0 <= i <= Z.of_nat (length l) -> Py.clamp l i = Z.to_nat i.
Proof. intros H. unfold Py.clamp. destruct (Z.ltb_spec i 0); lia. Qed.

Lemma clamp_le l i : (Py.clamp l i <= length l)%nat.
Proof. unfold Py.clamp. destruct (Z.ltb_spec i 0); lia. Qed.

Lemma clamp_minus_one l : Py.clamp l (-1) = (length l - 1)%nat.
Proof. unfold Py.clamp. cbn [Z.ltb Z.compare]. lia. Qed.

Lemma index_in_range l i :
  0 <= i < Z.of_nat (length l) -> Py.index l i = l !! Z.to_nat i.
Proof.
  intros H. unfold Py.index.
  destruct (Z.ltb_spec i 0); [lia|].
  destruct (Z.ltb_spec i 0); [lia|].
  destruct (Z.leb_spec (Z.of_nat (length l)) i); [lia|]. reflexivity.
Qed.

Lemma index_from_end l i :
  - Z.of_nat (length l) <= i < 0 ->
  Py.index l i = l !! Z.to_nat (i + Z.of_nat (length l)).
Proof.
  intros H. unfold Py.index.
  destruct (Z.ltb_spec i 0); [|lia].
  destruct (Z.ltb_spec (i + Z.of_nat (length l)) 0); [lia|].
  destruct (Z.leb_spec (Z.of_nat (length l)) (i + Z.of_nat (length l))); [lia|].
  reflexivity.
Qed.

(** [del l[s-1:e]] followed by [l.insert(s-1, x)], for a start inside the
    list or just behind it. *)
Lemma insert_del_slice l s e x :
  1 <= s <= Z.of_nat (length l) + 1 ->
  Py.insert (Py.del_slice l (s - 1) e) (s - 1) x =
  take (Z.to_nat (s - 1)) l
    ++ x :: drop (Nat.max (Z.to_nat (s - 1)) (Py.clamp l e)) l.
Proof.
  intros Hs. unfold Py.insert, Py.del_slice.
  rewrite (clamp_in_range l (s - 1)) by lia.
  set (lo := Z.to_nat (s - 1)). set (hi := Py.clamp l e).
  assert (Hlo : (lo <= length l)%nat) by (unfold lo; lia).
  assert (Hlen : length (take lo l) = lo) by (rewrite length_take; lia).
  rewrite clamp_in_range.
  - fold lo. rewrite take_app_length', drop_app_length' by (symmetry; exact Hlen).
    reflexivity.
  - rewrite length_app, Hlen. unfold lo. lia.
Qed.

(** The same two steps for the span (0, 0): nothing is deleted and [x]
    goes before the last element. *)
Lemma insert_del_slice_zero l x :
  Py.insert (Py.del_slice l (0 - 1) 0) (0 - 1) x =
  take (length l - 1) l ++ x :: drop (length l - 1) l.
Proof.
  unfold Py.insert, Py.del_slice. change (0 - 1) with (-1).
  rewrite (clamp_minus_one l), (clamp_in_range l 0) by lia.
  rewrite Nat.max_l by lia. rewrite take_drop, (clamp_minus_one l).
  reflexivity.
Qed.

Lemma slice_in_range l s e :
  1 <= s <= e -> e <= Z.of_nat (length l) ->
  Py.slice l (s - 1) e =
  take (Z.to_nat e - Z.to_nat (s - 1)) (drop (Z.to_nat (s - 1)) l).
Proof.
  intros Hs He. unfold Py.slice.
  now rewrite !clamp_in_range by lia.
Qed.

Lemma slice_length l s e :
  1 <= s <= e -> e <= Z.of_nat (length l) ->
  Z.of_nat (length (Py.slice l (s - 1) e)) = e - s + 1.
Proof.
  intros Hs He. rewrite slice_in_range by assumption.
  rewrite length_take, length_drop. lia.
Qed.
End SliceFacts.

(* ===================================================================== *)
(** ** Lines read back from what was written *)
(* ===================================================================== *)

Lemma readlines_nil s : Py.readlines s = [] -> s = EmptyString.
Proof.
  destruct s as [|c s]; [reflexivity|]. cbn [Py.readlines].
  destruct (Ascii.eqb c Py.newline); [discriminate|].
  destruct (Py.readlines s); discriminate.
Qed.

(** The lines of a text, laid end to end, are the text. *)
Lemma concat_readlines s : Py.concat_lines (Py.readlines s) = s.
Proof.
  induction s as [|c s IH]; [reflexivity|]. cbn [Py.readlines].
  destruct (Ascii.eqb c Py.newline) eqn:E.
  - apply Ascii.eqb_eq in E. subst c. cbn. unfold Py.concat_lines in IH.
    now rewrite IH.
  - destruct (Py.readlines s) as [|x xs] eqn:R.
    + apply readlines_nil in R. now subst s.
    + unfold Py.concat_lines in *. cbn [fold_right] in *.
      now rewrite sapp_cons, IH.
Qed.

Lemma concat_lines_app l1 l2 :
  Py.concat_lines (l1 ++ l2) = Py.concat_lines l1 +:+ Py.concat_lines l2.
Proof.
  unfold Py.concat_lines. induction l1 as [|x l1 IH]; [reflexivity|].
  cbn [app fold_right]. now rewrite IH, sapp_assoc.
Qed.

Lemma concat_lines_cons x l :
  Py.concat_lines (x :: l) = x +:+ Py.concat_lines l.
Proof. reflexivity. Qed.

(** Every line but the last has its terminator. *)
Lemma readlines_complete s :
  Forall complete_line (removelast (Py.readlines s)).
Proof.
  induction s as [|c s IH]; [constructor|]. cbn [Py.readlines].
  destruct (Ascii.eqb c Py.newline) eqn:E.
  - apply Ascii.eqb_eq in E. subst c. cbn [removelast].
    destruct (Py.readlines s) as [|x xs]; [constructor|].
    constructor; [|exact IH]. now exists EmptyString.
  - destruct (Py.readlines s) as [|x xs]; [constructor|].
    cbn [removelast] in *. destruct xs as [|y ys]; [constructor|].
    inversion IH as [|? ? (body & -> & Hb) Hrest]; subst.
    constructor; [|exact Hrest].
    exists (String c body). split; [reflexivity|].
    cbn [has_char]. now rewrite E, Hb.
Qed.

Lemma take_complete s k :
  (k < length (Py.readlines s))%nat ->
  Forall complete_line (take k (Py.readlines s)).
Proof.
  intros H. rewrite <- firstn_removelast by exact H.
  apply Forall_take, readlines_complete.
Qed.

Lemma readlines_prepend l s :
  complete_line l -> Py.readlines (l +:+ s) = l :: Py.readlines s.
Proof.
  intros (body & -> & Hb). induction body as [|c body IH].
  - rewrite sapp_nil_l. unfold Py.nl. rewrite sapp_cons, sapp_nil_l.
    cbn [Py.readlines]. now rewrite Ascii.eqb_refl.
  - cbn [has_char] in Hb. apply orb_false_iff in Hb as [Hc Hb].
    rewrite !sapp_cons. cbn [Py.readlines]. rewrite Hc, (IH Hb).
    reflexivity.
Qed.

Lemma readlines_concat_complete ls rest :
  Forall complete_line ls ->
  Py.readlines (Py.concat_lines ls +:+ rest) = ls ++ Py.readlines rest.
Proof.
  induction 1 as [|l ls Hl _ IH]; [reflexivity|].
  rewrite concat_lines_cons, sapp_assoc, (readlines_prepend _ _ Hl), IH.
  reflexivity.
Qed.

(** Text that was read has no carriage return, and reading it again
    changes nothing. *)
Lemma universal_newlines_no_cr s :
  has_char carriage_return (Py.universal_newlines s) = false.
Proof.
  induction s as [|c s IH]; [reflexivity|]. cbn [Py.universal_newlines].
  fold carriage_return. destruct (Ascii.eqb c carriage_return) eqn:E.
  - destruct s as [|d s']; [reflexivity|].
    destruct (Ascii.eqb d Py.newline); [exact IH|].
    cbn [has_char]. now rewrite IH.
  - cbn [has_char]. now rewrite E, IH.
Qed.

Lemma universal_newlines_app a b :
  has_char carriage_return a = false ->
  Py.universal_newlines (a +:+ b) = a +:+ Py.universal_newlines b.
Proof.
  induction a as [|c a IH]; intros H; [reflexivity|].
  cbn [has_char] in H. apply orb_false_iff in H as [Hc Ha].
  rewrite !sapp_cons. cbn [Py.universal_newlines]. fold carriage_return.
  now rewrite Hc, (IH Ha).
Qed.

Lemma universal_newlines_idem s :
  Py.universal_newlines (Py.universal_newlines s) = Py.universal_newlines s.
Proof.
  rewrite <- (sapp_nil_r (Py.universal_newlines s)) at 1.
  rewrite universal_newlines_app by apply universal_newlines_no_cr.
  apply sapp_nil_r.
Qed.

(* ===================================================================== *)
(** ** Locating a line and substituting a span *)
(* ===================================================================== *)

Section PatchFacts.
Variable ast_parse : string -> outcome Ast.node.

Lemma extract_line_lookup path n w text line :
  files w !! path = Some (Text text) ->
  1 <= n ->
  Py.readlines (Py.universal_newlines text) !! Z.to_nat (n - 1) = Some line ->
  extract_line path n w = (Ok (line, n, n), w).
Proof.
  intros Hf Hn Hl. pose proof (lookup_lt_Some _ _ _ Hl) as Hlt.
  unfold extract_line, bind, read_text. rewrite Hf.
  rewrite index_in_range by lia. now rewrite Hl.
Qed.

(** What [replace_code_in_file] writes when the start of the span is a
    line of the file, or the line after the last. *)
Lemma replace_code_run path new_code s e w text :
  files w !! path = Some (Text text) ->
  1 <= s <= Z.of_nat (length (Py.readlines (Py.universal_newlines text))) + 1 ->
  replace_code_in_file path new_code s e w =
    (Ok tt,
     {| files :=
          <[path :=
              Text (Py.concat_lines
                      (take (Z.to_nat (s - 1))
                            (Py.readlines (Py.universal_newlines text)))
                    +:+ new_code
                    +:+ Py.concat_lines
                          (drop (Nat.max (Z.to_nat (s - 1))
                                   (Py.clamp
                                      (Py.readlines (Py.universal_newlines text))
                                      e))
                                (Py.readlines (Py.universal_newlines text))))]>
            (files w);
        api_calls := api_calls w;
        log := log w |}).
Proof.
  intros Hf Hs.
  unfold replace_code_in_file, bind, read_text, write_lines. rewrite Hf.
  rewrite insert_del_slice by lia.
  rewrite concat_lines_app, concat_lines_cons. reflexivity.
Qed.

(** X1: for a line number between 1 and the number of lines of the file,
    the span located at the granularity of a line is that physical line,
    terminator included, with both bounds equal to the line number; the
    text of the file is the lines before it, the line, and the lines after
    it. The world is left as it was. *)
Theorem extract_line_in_range (path : string) (n : Z) (w : world)
    (text : string) :
  files w !! path = Some (Text text) ->
  1 <= n <= Z.of_nat (length (Py.readlines (Py.universal_newlines text))) ->
  let lines := Py.readlines (Py.universal_newlines text) in
  exists line,
    extract_code_from_context ast_parse path n LINE w = (Ok (line, n, n), w) /\
    lines !! Z.to_nat (n - 1) = Some line /\
    Py.universal_newlines text =
      Py.concat_lines (take (Z.to_nat (n - 1)) lines) +:+ line +:+
      Py.concat_lines (drop (Z.to_nat n) lines).
Proof.
  intros Hf Hn lines.
  destruct (lookup_lt_is_Some_2 lines (Z.to_nat (n - 1))) as [line Hl];
    [fold lines in Hn; lia|].
  exists line. split; [|split; [exact Hl|]].
  - cbn [extract_code_from_context].
    apply (extract_line_lookup _ _ _ text); [assumption | lia | exact Hl].
  - rewrite <- (concat_readlines (Py.universal_newlines text)). fold lines.
    rewrite <- (take_drop_middle _ _ _ Hl) at 1.
    rewrite concat_lines_app, concat_lines_cons.
    replace (S (Z.to_nat (n - 1))) with (Z.to_nat n) by lia. reflexivity.
Qed.

(** X2: a line number that is zero or negative is not refused: Python
    counts the index [line_number - 1] from the end of the list, so that
    line 0 is the last line of the file, line -1 the one before it, and so
    on, down to minus the number of lines, excluded. The bounds returned
    are the line number as it came. *)
Theorem extract_line_counts_from_end (path : string) (n : Z) (w : world)
    (text : string) :
  files w !! path = Some (Text text) ->
  - Z.of_nat (length (Py.readlines (Py.universal_newlines text))) < n <= 0 ->
  let lines := Py.readlines (Py.universal_newlines text) in
  exists line,
    extract_code_from_context ast_parse path n LINE w = (Ok (line, n, n), w) /\
    lines !! Z.to_nat (Z.of_nat (length lines) + n - 1) = Some line.
Proof.
  intros Hf Hn lines. fold lines in Hn.
  destruct (lookup_lt_is_Some_2 lines
              (Z.to_nat (Z.of_nat (length lines) + n - 1))) as [line Hl]; [lia|].
  exists line. split; [|exact Hl].
  cbn [extract_code_from_context]. unfold extract_line, bind, read_text.
  rewrite Hf. fold lines. rewrite index_from_end by lia.
  replace (n - 1 + Z.of_nat (length lines))
    with (Z.of_nat (length lines) + n - 1) by lia.
  now rewrite Hl.
Qed.

(** X3: substituting the span from line [s] to line [e], both inside the
    file, writes the lines before [s], the new code as it is, and the lines
    after [e]; no other file is written, nobody is called, nothing is
    logged. *)
Theorem replace_code_splices (path new_code : string) (s e : Z) (w : world)
    (text : string) :
  files w !! path = Some (Text text) ->
  1 <= s <= e ->
  e <= Z.of_nat (length (Py.readlines (Py.universal_newlines text))) ->
  let lines := Py.readlines (Py.universal_newlines text) in
  replace_code_in_file path new_code s e w =
    (Ok tt,
     {| files :=
          <[path := Text (Py.concat_lines (take (Z.to_nat (s - 1)) lines)
                          +:+ new_code
                          +:+ Py.concat_lines (drop (Z.to_nat e) lines))]>
            (files w);
        api_calls := api_calls w;
        log := log w |}).
Proof.
  intros Hf Hs He lines. fold lines in He.
  rewrite (replace_code_run _ _ _ e _ _ Hf) by (fold lines; lia).
  fold lines. rewrite (clamp_in_range lines e) by lia.
  rewrite Nat.max_r by lia. reflexivity.
Qed.

(** X4: for the span (0, 0), which is what an unsupported granularity and
    a warning on line 0 give, nothing is deleted: the new code is written
    before the last line of the file, and every line is kept. *)
Theorem replace_code_zero_span (path new_code : string) (w : world)
    (text : string) :
  files w !! path = Some (Text text) ->
  let lines := Py.readlines (Py.universal_newlines text) in
  replace_code_in_file path new_code 0 0 w =
    (Ok tt,
     {| files :=
          <[path := Text (Py.concat_lines (take (length lines - 1) lines)
                          +:+ new_code
                          +:+ Py.concat_lines (drop (length lines - 1) lines))]>
            (files w);
        api_calls := api_calls w;
        log := log w |}).
Proof.
  intros Hf lines.
  unfold replace_code_in_file, bind, read_text, write_lines. rewrite Hf.
  fold lines. rewrite insert_del_slice_zero.
  rewrite concat_lines_app, concat_lines_cons. reflexivity.
Qed.

(** X5: substituting a span by its own lines gives back the file: what is
    read from it afterwards is what was read before. *)
Theorem replace_code_round_trip (path : string) (s e : Z) (w : world)
    (text : string) :
  files w !! path = Some (Text text) ->
  1 <= s <= e ->
  e <= Z.of_nat (length (Py.readlines (Py.universal_newlines text))) ->
  let lines := Py.readlines (Py.universal_newlines text) in
  exists w',
    replace_code_in_file path (Py.concat_lines (Py.slice lines (s - 1) e))
      s e w = (Ok tt, w') /\
    read_text path w' = (Ok (Py.universal_newlines text), w').
Proof.
  intros Hf Hs He lines. fold lines in He.
  eexists. split; [apply (replace_code_run _ _ _ _ _ _ Hf); fold lines; lia|].
  fold lines. unfold read_text. cbn [files].
  rewrite lookup_insert_eq. do 2 f_equal.
  rewrite (clamp_in_range lines e) by lia. rewrite Nat.max_r by lia.
  rewrite slice_in_range by lia.
  rewrite <- sapp_assoc, <- !concat_lines_app, take_take_drop.
  replace (Z.to_nat (s - 1) + (Z.to_nat e - Z.to_nat (s - 1)))%nat
    with (Z.to_nat e) by lia.
  rewrite take_drop. unfold lines. rewrite concat_readlines.
  apply universal_newlines_idem.
Qed.

(** X6: a substitution that starts at line [s] leaves every line before [s]
    where it was and as it was, whatever the new code and however many
    lines it has: locating such a line at the granularity of a line gives
    the same line after the patch as before. Only the lines above the start
    of the span are concerned: the span of a function starts at its [def],
    which may lie above the line of the warning it is replaced for. *)
Theorem replace_code_keeps_earlier_lines (path new_code : string) (s e k : Z)
    (w : world) (text : string) :
  files w !! path = Some (Text text) ->
  1 <= k < s ->
  s <= Z.of_nat (length (Py.readlines (Py.universal_newlines text))) ->
  exists w' line,
    replace_code_in_file path new_code s e w = (Ok tt, w') /\
    extract_code_from_context ast_parse path k LINE w = (Ok (line, k, k), w) /\
    extract_code_from_context ast_parse path k LINE w' = (Ok (line, k, k), w').
Proof.
  intros Hf Hk Hs.
  set (lines := Py.readlines (Py.universal_newlines text)) in *.
  destruct (lookup_lt_is_Some_2 lines (Z.to_nat (k - 1))) as [line Hl]; [lia|].
  eexists _, line. split; [|split].
  - apply (replace_code_run _ _ _ _ _ _ Hf). fold lines. lia.
  - cbn [extract_code_from_context].
    apply (extract_line_lookup _ _ _ text); [assumption | lia | exact Hl].
  - cbn [extract_code_from_context]. unfold extract_line, bind, read_text.
    cbn [files]. rewrite lookup_insert_eq. fold lines.
    set (lo := Z.to_nat (s - 1)).
    assert (Hcr : has_char carriage_return (Py.concat_lines (take lo lines))
                  = false).
    { pose proof (universal_newlines_no_cr text) as H.
      rewrite <- (concat_readlines (Py.universal_newlines text)) in H.
      fold lines in H. rewrite <- (take_drop lo lines) in H.
      rewrite concat_lines_app, has_char_app in H.
      now apply orb_false_iff in H as [H _]. }
    rewrite (universal_newlines_app _ _ Hcr).
    rewrite readlines_concat_complete
      by (apply take_complete; fold lines; unfold lo; lia).
    assert (Hlen : length (take lo lines) = lo)
      by (rewrite length_take; unfold lo; lia).
    rewrite index_in_range by (rewrite length_app, Hlen; unfold lo; lia).
    rewrite lookup_app_l by (rewrite Hlen; unfold lo; lia).
    rewrite lookup_take_lt by (unfold lo; lia).
    now rewrite Hl.
Qed.
End PatchFacts.

(* ===================================================================== *)
(** ** Spans of functions, and indentation by nothing *)
(* ===================================================================== *)

(** Joining what was split gives back the text. *)
Lemma join_split sep s :
  Py.join (String sep EmptyString) (Py.split sep s) = s.
Proof.
  induction s as [|c s IH]; [reflexivity|]. cbn [Py.split].
  destruct (Ascii.eqb c sep) eqn:E.
  - apply Ascii.eqb_eq in E. subst c.
    destruct (Py.split sep s) as [|x xs] eqn:R; [now apply split_not_nil in R|].
    cbn [Py.join] in *. now rewrite sapp_nil_l, sapp_cons, sapp_nil_l, IH.
  - destruct (Py.split sep s) as [|x xs] eqn:R; [now apply split_not_nil in R|].
    rewrite <- IH. destruct xs; reflexivity.
Qed.

(** X7: with an indentation of zero, or a negative one, [add_indentation]
    changes nothing in the code and only ends it with a newline. *)
Theorem add_indentation_zero (code : string) (indentation : Z) :
  indentation <= 0 ->
  add_indentation code indentation = code +:+ Py.nl.
Proof.
  intros H. unfold add_indentation, Py.mul.
  replace (Z.to_nat indentation) with O by lia. cbn [Py.repeat_nat].
  f_equal. rewrite <- (join_split Py.newline code) at 2. unfold Py.nl.
  f_equal. rewrite <- (map_id (Py.split Py.newline code)) at 2.
  apply map_ext. intros l. now destruct (Py.truthy (Py.strip l)).
Qed.

(** X7 on a replacement of one line. *)
Lemma add_indentation_zero_witness :
  add_indentation "x = 1" 0 = "x = 1" +:+ Py.nl.
Proof. apply (add_indentation_zero "x = 1" 0). lia. Defined.

Section MethodFacts.
Variable ast_parse : string -> outcome Ast.node.

(** X8: when the function definition found lies inside the source, from
    line [lineno] to line [end_lineno], the text returned for it has
    [end_lineno - lineno + 1] lines: those lines of the source, without the
    terminator of the last one. *)
Theorem method_span_line_count (path : string) (line_number : Z) (w : world)
    (text : string) (tree node : Ast.node) :
  files w !! path = Some (Text text) ->
  ast_parse (Py.universal_newlines text) = Ok tree ->
  find_method tree line_number = Some node ->
  1 <= Ast.lineno node <= Ast.end_lineno node ->
  Ast.end_lineno node
    <= Z.of_nat (length (Py.split Py.newline (Py.universal_newlines text))) ->
  exists method_str,
    extract_method_from_line ast_parse path line_number w =
      (Ok (method_str, Ast.lineno node, Ast.end_lineno node), w) /\
    Py.split Py.newline method_str =
      Py.slice (Py.split Py.newline (Py.universal_newlines text))
               (Ast.lineno node - 1) (Ast.end_lineno node) /\
    Z.of_nat (length (Py.split Py.newline method_str)) =
      Ast.end_lineno node - Ast.lineno node + 1.
Proof.
  intros Hf Hp Hfind Hlo Hhi.
  set (src := Py.split Py.newline (Py.universal_newlines text)) in *.
  assert (Hsplit :
    Py.split Py.newline
      (Py.join Py.nl (Py.slice src (Ast.lineno node - 1) (Ast.end_lineno node)))
    = Py.slice src (Ast.lineno node - 1) (Ast.end_lineno node)).
  { apply split_join.
    - intros E. pose proof (slice_length src _ _ Hlo Hhi) as Hlen.
      rewrite E in Hlen. cbn in Hlen. lia.
    - rewrite slice_in_range by assumption.
      apply Forall_take, Forall_drop, split_no_sep. }
  eexists. split; [|split].
  - unfold extract_method_from_line, bind, read_text.
    rewrite Hf, Hp, Hfind. fold src. reflexivity.
  - exact Hsplit.
  - rewrite Hsplit. now apply slice_length.
Qed.

(** X9: when no [FunctionDef] of the tree contains the line, which
    includes a line that only an [async def] or a class contains, the span
    located at the granularity of a function is the one located at the
    granularity of a line, after one record in the log. *)
Theorem method_falls_back_to_line (path : string) (line_number : Z)
    (w : world) (text : string) (tree : Ast.node) :
  files w !! path = Some (Text text) ->
  ast_parse (Py.universal_newlines text) = Ok tree ->
  (forall m, m ∈ Ast.walk tree -> Ast.is_FunctionDef m = true ->
             ~ (Ast.lineno m <= line_number <= Ast.end_lineno m)) ->
  extract_code_from_context ast_parse path line_number METHOD w =
  extract_code_from_context ast_parse path line_number LINE
    (add_log w (INFO, MethodNotFound line_number path)).
Proof.
  intros Hf Hp Hnone. cbn [extract_code_from_context].
  unfold extract_method_from_line, bind, read_text. rewrite Hf, Hp.
  destruct (find_method tree line_number) as [n|] eqn:E; [|reflexivity].
  exfalso. apply find_some in E as [Hin Hc].
  unfold contains_line in Hc.
  apply andb_true_iff in Hc as [Hc H3]. apply andb_true_iff in Hc as [H1 H2].
  apply Z.leb_le in H2, H3.
  apply (Hnone n); [now apply list_elem_of_In | assumption | lia].
Qed.
End MethodFacts.

(* ===================================================================== *)
(** ** What a fix attempt and a batch can and cannot do *)
(* ===================================================================== *)

Section KeepsFacts.
Context {A B : Type} (R : world -> world -> Prop).

Lemma keeps_ret `{!Reflexive R} (a : A) : keeps R (ret a).
Proof. intros w r w' H. inversion H; subst. reflexivity. Qed.

Lemma keeps_raise `{!Reflexive R} e : keeps R (@raise A e).
Proof. intros w r w' H. inversion H; subst. reflexivity. Qed.

Lemma keeps_bind `{!Transitive R} (m : M A) (k : A -> M B) :
  keeps R m -> (forall a, keeps R (k a)) -> keeps R (bind m k).
Proof.
  intros Hm Hk w r w' H. unfold bind in H.
  destruct (m w) as [[a|e] w1] eqn:E.
  - transitivity w1; [exact (Hm _ _ _ E) | exact (Hk a _ _ _ H)].
  - inversion H; subst. exact (Hm _ _ _ E).
Qed.

Lemma quiet_keeps (m : M A) :
  (forall w w', files w' = files w -> api_calls w' = api_calls w -> R w w') ->
  quiet m -> keeps R m.
Proof. intros HR Hq w r w' H. destruct (Hq _ _ _ H). now apply HR. Qed.
End KeepsFacts.

Lemma keeps_for_each {A} (R : world -> world -> Prop)
    `{!Reflexive R} `{!Transitive R} (xs : list A) (body : A -> M unit) :
  (forall x, x ∈ xs -> keeps R (body x)) -> keeps R (for_each xs body).
Proof.
  induction xs as [|x xs IH]; intros Hb.
  - apply keeps_ret; assumption.
  - cbn [for_each]. apply keeps_bind; [assumption | |].
    + apply Hb, list_elem_of_here.
    + intros _. apply IH. intros y Hy. apply Hb. now apply list_elem_of_further.
Qed.

Global Instance same_outside_refl P : Reflexive (same_outside P).
Proof. intros w p _. reflexivity. Qed.

Global Instance same_outside_trans P : Transitive (same_outside P).
Proof. intros w1 w2 w3 H12 H23 p Hp. rewrite (H23 p Hp). now apply H12. Qed.

Lemma same_outside_of_files P w w' :
  files w' = files w -> same_outside P w w'.
Proof. intros H p _. now rewrite H. Qed.

Lemma quiet_check_python_file py_compile path :
  quiet (check_python_file py_compile path).
Proof. intros w r w' H. exact (check_python_file_frame _ _ _ _ _ H). Qed.

Lemma replace_code_same_outside (P : string -> Prop) path new_code s e :
  P path -> keeps (same_outside P) (replace_code_in_file path new_code s e).
Proof.
  intros HP w r w' H p Hp.
  unfold replace_code_in_file, bind, read_text, write_lines in H.
  destruct (files w !! path) as [[text|]|]; inversion H; subst;
    [|reflexivity..].
  cbn [files]. apply lookup_insert_ne. intros ->. now apply Hp.
Qed.

Section BatchFacts.
Variable py_compile : string -> option exn.
Variable ast_parse : string -> outcome Ast.node.
Variable api_create : list api_request -> api_request -> outcome string.

Local Abbreviation apply_fix := (apply_fix_to_warning py_compile ast_parse api_create).
Local Abbreviation fix_all := (fix_warnings py_compile ast_parse api_create).
Local Abbreviation dispatch_one := (dispatch py_compile ast_parse api_create).

Lemma apply_fix_same_outside (P : string -> Prop) fx wn :
  P (target_path wn) -> keeps (same_outside P) (apply_fix fx wn).
Proof.
  intros HP. unfold apply_fix_to_warning.
  apply keeps_bind; [apply _ | |].
  { apply quiet_keeps; [|apply quiet_check_python_file].
    intros w w' Hf _. now apply same_outside_of_files. }
  intros [|]; [|apply keeps_ret; apply _].
  apply keeps_bind; [apply _ | |].
  { apply quiet_keeps; [|apply quiet_extract_code].
    intros w w' Hf _. now apply same_outside_of_files. }
  intros [[code s] e].
  apply keeps_bind; [apply _ | |].
  { intros w r w' H. apply same_outside_of_files.
    exact (anthropic_request_files _ _ _ _ _ _ _ H). }
  intros new_code.
  apply keeps_bind; [apply _ | |].
  { now apply replace_code_same_outside. }
  intros _. apply keeps_bind; [apply _ | |].
  { apply quiet_keeps; [|apply quiet_check_python_file].
    intros w w' Hf _. now apply same_outside_of_files. }
  intros [|]; [apply keeps_ret | apply keeps_raise]; apply _.
Qed.

Lemma dispatch_same_outside (P : string -> Prop) fixes wn :
  P (target_path wn) -> keeps (same_outside P) (dispatch_one fixes wn).
Proof.
  intros HP. unfold dispatch.
  destruct (List.find _ fixes); [now apply apply_fix_same_outside|].
  apply keeps_ret; apply _.
Qed.

(** X10: whatever happens in it, a batch writes no file but the files the
    warnings of the report name: every other file of the disk is, after
    the batch, what it was before, also when the batch ends with an
    exception. *)
Theorem fix_warnings_writes_only_targets (warnings : list warning)
    (w w' : world) (r : outcome unit) (p : string) :
  fix_all warnings w = (r, w') ->
  p ∉ map target_path warnings ->
  files w' !! p = files w !! p.
Proof.
  intros H Hp.
  assert (K : keeps (same_outside (fun q => q ∈ map target_path warnings))
                (fix_all warnings)).
  { unfold fix_warnings. apply keeps_for_each; try apply _.
    intros wn Hwn. apply dispatch_same_outside.
    apply list_elem_of_fmap. exists wn. split; [reflexivity|].
    apply list_elem_of_In. apply in_rev. now apply list_elem_of_In. }
  exact (K _ _ _ H p Hp).
Qed.
Lemma calls_grow_refl w : calls_grow 0 w w.
Proof. exists []. split; [now rewrite app_nil_r | reflexivity]. Qed.

Lemma calls_grow_trans n k w1 w2 w3 :
  calls_grow n w1 w2 -> calls_grow k w2 w3 -> calls_grow (n + k) w1 w3.
Proof.
  intros (new1 & E1 & L1) (new2 & E2 & L2). exists (new1 ++ new2). split.
  - now rewrite E2, E1, app_assoc.
  - rewrite length_app. lia.
Qed.

Lemma calls_grow_mono n k w w' :
  (n <= k)%nat -> calls_grow n w w' -> calls_grow k w w'.
Proof. intros Hnk (new & E & L). exists new. split; [exact E | lia]. Qed.

Lemma calls_bind {A B} n k (m : M A) (f : A -> M B) :
  keeps (calls_grow n) m -> (forall a, keeps (calls_grow k) (f a)) ->
  keeps (calls_grow (n + k)) (bind m f).
Proof.
  intros Hm Hf w r w' H. unfold bind in H.
  destruct (m w) as [[a|e] w1] eqn:E.
  - exact (calls_grow_trans _ _ _ _ _ (Hm _ _ _ E) (Hf a _ _ _ H)).
  - inversion H; subst. apply (calls_grow_mono n); [lia|]. exact (Hm _ _ _ E).
Qed.

Lemma quiet_calls {A} (m : M A) : quiet m -> keeps (calls_grow 0) m.
Proof.
  intros Hq w r w' H. destruct (Hq _ _ _ H) as [_ Ha].
  exists []. split; [now rewrite app_nil_r | reflexivity].
Qed.

Lemma anthropic_request_calls msg code prompt w r w' :
  anthropic_request api_create msg code prompt w = (r, w') ->
  api_calls w' =
    api_calls w ++ [ {| req_system := prompt;
                        req_text := msg +:+ Py.nl +:+ code |} ].
Proof.
  unfold anthropic_request, bind, logging. cbn [add_log api_calls files log].
  destruct (api_create _ _) as [text|e]; intros H.
  - apply quiet_extract_reply in H as [_ H]. rewrite H. reflexivity.
  - inversion H; subst. reflexivity.
Qed.

Lemma replace_code_calls path new_code s e :
  keeps (calls_grow 0) (replace_code_in_file path new_code s e).
Proof.
  intros w r w' H.
  unfold replace_code_in_file, bind, read_text, write_lines in H.
  destruct (files w !! path) as [[text|]|]; inversion H; subst;
    (exists []; split; [cbn [api_calls]; now rewrite app_nil_r | reflexivity]).
Qed.

Lemma apply_fix_calls fx wn : keeps (calls_grow 1) (apply_fix fx wn).
Proof.
  unfold apply_fix_to_warning.
  apply (calls_bind 0 1); [apply quiet_calls, quiet_check_python_file|].
  intros [|]; [|intros w r w' H; inversion H; subst;
                 apply (calls_grow_mono 0); [lia | apply calls_grow_refl]].
  apply (calls_bind 0 1); [apply quiet_calls, quiet_extract_code|].
  intros [[code s] e].
  apply (calls_bind 1 0).
  { intros w r w' H. eexists. split;
      [exact (anthropic_request_calls _ _ _ _ _ _ H) | reflexivity]. }
  intros new_code.
  apply (calls_bind 0 0); [apply replace_code_calls|]. intros _.
  apply (calls_bind 0 0); [apply quiet_calls, quiet_check_python_file|].
  intros [|]; intros w r w' H; inversion H; subst; apply calls_grow_refl.
Qed.

Lemma for_each_calls {A} (xs : list A) (body : A -> M unit) :
  (forall x, keeps (calls_grow 1) (body x)) ->
  keeps (calls_grow (length xs)) (for_each xs body).
Proof.
  intros Hb. induction xs as [|x xs IH].
  - intros w r w' H. inversion H; subst. apply calls_grow_refl.
  - cbn [for_each length]. apply (calls_bind 1 (length xs)); [apply Hb|].
    intros _. exact IH.
Qed.

(** X11: a batch calls the suggester at most once for each warning of the
    report, and the calls made before it are kept, in their order. *)
Theorem fix_warnings_one_call_per_warning (warnings : list warning)
    (w w' : world) (r : outcome unit) :
  fix_all warnings w = (r, w') ->
  exists new, api_calls w' = api_calls w ++ new /\
              (length new <= length warnings)%nat.
Proof.
  intros H.
  assert (K : keeps (calls_grow (length (rev warnings))) (fix_all warnings)).
  { unfold fix_warnings. apply for_each_calls. intros wn. unfold dispatch.
    destruct (List.find _ PYLINT_FIXES); [apply apply_fix_calls|].
    intros v r0 v' H0. inversion H0; subst.
    apply (calls_grow_mono 0); [lia | apply calls_grow_refl]. }
  rewrite length_rev in K. exact (K _ _ _ H).
Qed.

Lemma check_true_compiles path w w' :
  check_python_file py_compile path w = (Ok true, w') ->
  compiles py_compile w' path.
Proof.
  intros H. pose proof (check_python_file_frame _ _ _ _ _ H) as [Hf _].
  rewrite check_python_file_run in H. unfold compiles. rewrite Hf.
  destruct (files w !! path) as [[s|]|]; try discriminate.
  destruct (py_compile (Py.universal_newlines s)) eqn:E; [discriminate|].
  now exists s.
Qed.

Lemma compiles_same_file p w w' :
  files w' !! p = files w !! p ->
  compiles py_compile w p -> compiles py_compile w' p.
Proof. intros Hf (s & Hs & Hc). exists s. split; [congruence | exact Hc]. Qed.

Lemma apply_fix_ok_compiles fx wn w w' p :
  apply_fix fx wn w = (Ok tt, w') ->
  compiles py_compile w p -> compiles py_compile w' p.
Proof.
  intros H Hc. destruct (decide (p = target_path wn)) as [->|Hne].
  - unfold apply_fix_to_warning, bind in H.
    destruct (check_python_file py_compile (target_path wn) w)
      as [[[|]|e1] w1] eqn:E1; try discriminate.
    + destruct (extract_code_from_context _ _ _ _ w1)
        as [[[[code s] e]|e2] w2]; try discriminate.
      destruct (anthropic_request _ _ _ _ w2) as [[new_code|e3] w3];
        try discriminate.
      destruct (replace_code_in_file _ _ _ _ w3) as [[[]|e4] w4];
        try discriminate.
      destruct (check_python_file py_compile (target_path wn) w4)
        as [[[|]|e5] w5] eqn:E5; try discriminate.
      inversion H; subst. exact (check_true_compiles _ _ _ E5).
    + inversion H; subst.
      destruct (check_python_file_frame _ _ _ _ _ E1) as [Hf _].
      apply (compiles_same_file _ w); [now rewrite Hf | exact Hc].
  - apply (compiles_same_file _ w); [|exact Hc].
    apply (apply_fix_same_outside (fun q => q = target_path wn) fx wn
             eq_refl _ _ _ H p Hne).
Qed.

(** X12: a batch that ends without an exception leaves every file that
    compiled before it in a state that compiles: either the file was not
    written, or its last patch passed the check made after it. *)
Theorem fix_warnings_keeps_files_valid (warnings : list warning)
    (w w' : world) (p : string) :
  fix_all warnings w = (Ok tt, w') ->
  compiles py_compile w p -> compiles py_compile w' p.
Proof.
  unfold fix_warnings. generalize (rev warnings). intros ws. revert w.
  induction ws as [|wn ws IH]; intros w H Hc.
  - inversion H; subst. exact Hc.
  - cbn [for_each] in H. unfold bind in H.
    destruct (dispatch_one PYLINT_FIXES wn w) as [[[]|e] w1] eqn:E;
      [|discriminate].
    apply (IH w1 H). unfold dispatch in E.
    destruct (List.find _ PYLINT_FIXES) as [fx|].
    + exact (apply_fix_ok_compiles _ _ _ _ _ E Hc).
    + inversion E; subst. exact Hc.
Qed.

Lemma find_fix_none (fixes : list PylintFix) (ec : string) :
  ec ∉ map code fixes ->
  List.find (fun fx => String.eqb (code fx) ec) fixes = None.
Proof.
  induction fixes as [|fx fixes IH]; intros H; [reflexivity|].
  cbn [List.find]. destruct (String.eqb (code fx) ec) eqn:E.
  - apply String.eqb_eq in E. exfalso. apply H. cbn [map]. rewrite E.
    apply list_elem_of_here.
  - apply IH. intros Hin. apply H. now apply list_elem_of_further.
Qed.

(** X13: warnings whose codes the catalog does not cover are passed over:
    a batch made of such warnings only reads nothing, calls nobody, writes
    nothing and logs nothing. *)
Theorem fix_warnings_skips_uncovered_codes (warnings : list warning)
    (w : world) :
  Forall (fun wn => error_code wn ∉ map code PYLINT_FIXES) warnings ->
  fix_all warnings w = (Ok tt, w).
Proof.
  intros H. unfold fix_warnings. apply Forall_rev in H.
  induction H as [|wn ws Hwn _ IH]; [reflexivity|].
  cbn [for_each]. unfold bind, dispatch.
  rewrite (find_fix_none _ _ Hwn). exact IH.
Qed.

(** X14: an exception in the handling of one warning ends the batch: the
    warnings that come before it in the report, which would have been
    handled after it, are not handled, and the world is left as the failed
    attempt left it. *)
Theorem fix_warnings_stops_at_exception (ws1 ws2 : list warning)
    (wn : warning) (w w1 w2 : world) (e : exn) :
  fix_all ws2 w = (Ok tt, w1) ->
  dispatch_one PYLINT_FIXES wn w1 = (Raise e, w2) ->
  fix_all (ws1 ++ wn :: ws2) w = (Raise e, w2).
Proof.
  intros H2 Hd. unfold fix_warnings in *.
  rewrite rev_app_distr. cbn [rev]. rewrite <- app_assoc, for_each_app.
  unfold bind at 1. rewrite H2. cbn [app for_each]. unfold bind.
  now rewrite Hd.
Qed.

(** X15: when the pre-check passes, a span is located, the suggester
    replies and the patched text compiles, the attempt returns normally:
    the file holds the lines before the span, the reply re-indented by the
    indentation of the span, and the lines after the span; exactly one call
    was made to the suggester, with the message of the warning and the code
    of the span. *)
Theorem apply_fix_validated (fx : PylintFix) (wn : warning)
    (w w1 w2 w3 : world) (text code new_code : string)
    (line_start line_end : Z) :
  let path := target_path wn in
  let patched :=
    Py.concat_lines
      (Py.insert
         (Py.del_slice (Py.readlines (Py.universal_newlines text))
                       (line_start - 1) line_end)
         (line_start - 1)
         (add_indentation new_code (get_starting_indentation code))) in
  files w !! path = Some (Text text) ->
  check_python_file py_compile path w = (Ok true, w1) ->
  extract_code_from_context ast_parse path (line_number wn) (context fx) w1
    = (Ok (code, line_start, line_end), w2) ->
  anthropic_request api_create (error_message wn) code (prompt fx) w2
    = (Ok new_code, w3) ->
  py_compile (Py.universal_newlines patched) = None ->
  exists w',
    apply_fix fx wn w = (Ok tt, w') /\
    files w' = <[path := Text patched]> (files w) /\
    api_calls w' =
      api_calls w ++ [ {| req_system := prompt fx;
                          req_text := error_message wn +:+ Py.nl +:+ code |} ].
Proof.
  intros path patched Hf Hck Hex Hrq Hgood.
  destruct (check_python_file_frame _ _ _ _ _ Hck) as [F1 A1].
  destruct (quiet_extract_code _ _ _ _ _ _ _ Hex) as [F2 A2].
  pose proof (anthropic_request_files _ _ _ _ _ _ _ Hrq) as F3.
  pose proof (anthropic_request_calls _ _ _ _ _ _ Hrq) as A3.
  assert (F : files w3 = files w) by congruence.
  unfold apply_fix_to_warning, bind. fold path. rewrite Hck, Hex, Hrq.
  unfold replace_code_in_file, bind, read_text. rewrite F, Hf.
  unfold write_lines. rewrite check_python_file_run. cbn [files].
  rewrite lookup_insert_eq. fold patched. rewrite Hgood.
  eexists. split; [reflexivity|]. cbn [add_log files api_calls].
  split; [now rewrite F | now rewrite A3, A2, A1].
Qed.

(** X16: a failure of the suggester is not caught: when the call raises,
    the attempt ends with the same exception; the call is on record and
    the file is as it was. *)
Theorem apply_fix_suggester_failure (fx : PylintFix) (wn : warning)
    (w w1 w2 : world) (code : string) (line_start line_end : Z) (e : exn) :
  let path := target_path wn in
  let request := {| req_system := prompt fx;
                    req_text := error_message wn +:+ Py.nl +:+ code |} in
  check_python_file py_compile path w = (Ok true, w1) ->
  extract_code_from_context ast_parse path (line_number wn) (context fx) w1
    = (Ok (code, line_start, line_end), w2) ->
  api_create (api_calls w) request = Raise e ->
  exists w',
    apply_fix fx wn w = (Raise e, w') /\
    files w' = files w /\
    api_calls w' = api_calls w ++ [request].
Proof.
  intros path request Hck Hex Hapi.
  destruct (check_python_file_frame _ _ _ _ _ Hck) as [F1 A1].
  destruct (quiet_extract_code _ _ _ _ _ _ _ Hex) as [F2 A2].
  unfold apply_fix_to_warning, bind. fold path. rewrite Hck, Hex.
  unfold anthropic_request, bind, logging. cbn [add_log api_calls files log].
  fold request. rewrite A2, A1, Hapi.
  eexists. split; [reflexivity|]. cbn [files api_calls].
  split; congruence.
Qed.

(** X17: a fix whose granularity is neither the line nor the function is
    not passed over: the suggester is asked about an empty code, and its
    reply, ended by a newline, is written before the last line of the file,
    of which no line is removed. *)
Theorem apply_fix_unsupported_context (fx : PylintFix) (wn : warning)
    (w : world) (text reply : string) :
  let path := target_path wn in
  let lines := Py.readlines (Py.universal_newlines text) in
  let new_code := match Re.search reply with Some g => g | None => reply end in
  context fx <> LINE -> context fx <> METHOD ->
  files w !! path = Some (Text text) ->
  py_compile (Py.universal_newlines text) = None ->
  api_create (api_calls w)
    {| req_system := prompt fx;
       req_text := error_message wn +:+ Py.nl +:+ EmptyString |} = Ok reply ->
  exists r w',
    apply_fix fx wn w = (r, w') /\
    files w' =
      <[path := Text (Py.concat_lines (take (length lines - 1) lines)
                      +:+ add_indentation new_code 0
                      +:+ Py.concat_lines (drop (length lines - 1) lines))]>
        (files w).
Proof.
  intros path lines new_code HL HM Hf Hc Hapi.
  unfold apply_fix_to_warning, bind. fold path.
  rewrite check_python_file_run, Hf, Hc.
  set (w1 := add_log w (INFO, SyntacticallyCorrect path)).
  assert (Hex : extract_code_from_context ast_parse path (line_number wn)
                  (context fx) w1
                = (Ok (EmptyString, 0, 0),
                   add_log w1 (WARNING,
                               UnsupportedContext (context fx) (line_number wn)
                                 path))).
  { destruct (context fx); try congruence; reflexivity. }
  rewrite Hex.
  set (w2 := add_log w1 _).
  destruct (anthropic_request_run api_create (error_message wn) EmptyString
              (prompt fx) w2 reply Hapi) as [w3 Hrun].
  rewrite Hrun. fold new_code.
  pose proof (anthropic_request_files _ _ _ _ _ _ _ Hrun) as F3.
  assert (F : files w3 = files w) by (rewrite F3; reflexivity).
  unfold replace_code_in_file, bind, read_text, write_lines.
  rewrite F, Hf. fold lines. rewrite insert_del_slice_zero.
  change (get_starting_indentation EmptyString) with 0.
  rewrite concat_lines_app, concat_lines_cons.
  match goal with
  | |- context [check_python_file py_compile path ?v] =>
      destruct (check_python_file py_compile path v) as [[[|]|e5] w5] eqn:E5;
      destruct (check_python_file_frame _ _ _ _ _ E5) as [F5 _]
  end; cbn [assert]; eexists _, _; (split; [reflexivity|]);
    rewrite F5; cbn [files]; rewrite F; reflexivity.
Qed.

End BatchFacts.

(* ===================================================================== *)
(** ** The code taken out of a reply is stripped *)
(* ===================================================================== *)

Section StripFacts.
Variable sp : ascii -> bool.

Lemma rstrip_chars_idem s :
  Py.rstrip_chars sp (Py.rstrip_chars sp s) = Py.rstrip_chars sp s.
Proof.
  induction s as [|c s IH]; [reflexivity|]. cbn [Py.rstrip_chars].
  destruct (Py.rstrip_chars sp s) as [|d r] eqn:E.
  - destruct (sp c) eqn:Hc; [reflexivity|]. cbn [Py.rstrip_chars]. now rewrite Hc.
  - cbn [Py.rstrip_chars] in *. now rewrite IH.
Qed.

Lemma rstrip_chars_tail c t :
  Py.rstrip_chars sp (String c t) = String c t -> Py.rstrip_chars sp t = t.
Proof.
  cbn [Py.rstrip_chars]. destruct (Py.rstrip_chars sp t) as [|d r].
  - destruct (sp c); [discriminate|]. intros H. now inversion H.
  - intros H. now inversion H.
Qed.

Lemma rstrip_lstrip_chars t :
  Py.rstrip_chars sp t = t ->
  Py.rstrip_chars sp (Py.lstrip_chars sp t) = Py.lstrip_chars sp t.
Proof.
  induction t as [|c t IH]; intros H; [reflexivity|].
  cbn [Py.lstrip_chars]. destruct (sp c); [|exact H].
  apply IH. exact (rstrip_chars_tail _ _ H).
Qed.

Lemma lstrip_chars_idem s :
  Py.lstrip_chars sp (Py.lstrip_chars sp s) = Py.lstrip_chars sp s.
Proof.
  induction s as [|c s IH]; [reflexivity|]. cbn [Py.lstrip_chars].
  destruct (sp c) eqn:Hc; [exact IH|]. cbn [Py.lstrip_chars]. now rewrite Hc.
Qed.

Lemma rstrip_chars_snoc b c :
  sp c = false ->
  Py.rstrip_chars sp (b +:+ String c EmptyString) = b +:+ String c EmptyString.
Proof.
  intros Hc. induction b as [|d b IH].
  - rewrite sapp_nil_l. cbn [Py.rstrip_chars]. now rewrite Hc.
  - rewrite sapp_cons. cbn [Py.rstrip_chars]. rewrite IH.
    destruct b; reflexivity.
Qed.

Lemma has_char_lstrip_chars c s :
  has_char c s = false -> has_char c (Py.lstrip_chars sp s) = false.
Proof.
  induction s as [|d s IH]; intros H; [reflexivity|].
  cbn [Py.lstrip_chars]. destruct (sp d); [|exact H].
  cbn [has_char] in H. apply orb_false_iff in H as [_ H]. now apply IH.
Qed.

Lemma has_char_rstrip_chars c s :
  has_char c s = false -> has_char c (Py.rstrip_chars sp s) = false.
Proof.
  induction s as [|d s IH]; intros H; [reflexivity|].
  cbn [has_char] in H. apply orb_false_iff in H as [Hd H].
  cbn [Py.rstrip_chars]. specialize (IH H).
  destruct (Py.rstrip_chars sp s) as [|e r].
  - destruct (sp d); [reflexivity|]. cbn [has_char]. now rewrite Hd.
  - cbn [has_char] in *. now rewrite Hd, IH.
Qed.
End StripFacts.

Lemma strip_idem s : Py.strip (Py.strip s) = Py.strip s.
Proof.
  unfold Py.strip, Py.lstrip, Py.rstrip.
  rewrite rstrip_lstrip_chars by apply rstrip_chars_idem.
  apply lstrip_chars_idem.
Qed.

Lemma has_char_strip c s : has_char c s = false -> has_char c (Py.strip s) = false.
Proof.
  intros H. unfold Py.strip, Py.lstrip, Py.rstrip.
  now apply has_char_lstrip_chars, has_char_rstrip_chars.
Qed.

Lemma string_snoc_cases s :
  s = EmptyString \/ exists b c, s = b +:+ String c EmptyString.
Proof.
  induction s as [|d s IH]; [now left|]. right.
  destruct IH as [-> | (b & c & ->)].
  - now exists EmptyString, d.
  - now exists (String d b), c.
Qed.

Section BlockFacts.

(** What follows the group in the pattern: white space and the closing
    fence. *)
Local Abbreviation closer :=
  (fun g : string => Re.spaces (Re.lit Re.fence (fun _ => Some g))).

Lemma closer_sound g s r :
  closer g s = Some r ->
  r = g /\ exists ws post, s = ws +:+ Re.fence +:+ post /\
                           all_space ws = true /\ ws <> EmptyString.
Proof.
  intros H. apply spaces_sound in H as (ws & rest & -> & Hws & Hne & H).
  apply lit_sound in H as (post & -> & H). inversion H; subst.
  split; [reflexivity|]. now exists ws, post.
Qed.

Lemma closer_complete g ws post :
  all_space ws = true -> ws <> EmptyString ->
  closer g (ws +:+ Re.fence +:+ post) = Some g.
Proof.
  intros Hws Hne.
  destruct (spaces_complete (Re.lit Re.fence (fun _ => Some g)) ws
              (Re.fence +:+ post) Hws Hne) as [r Hr].
  { rewrite lit_complete. eauto. }
  destruct (closer_sound _ _ _ Hr) as [-> _]. exact Hr.
Qed.

(** The lazy group stops at the first place where what follows matches. *)
Lemma any_lazy_first {R} (k : string -> string -> option R) acc s r :
  Re.any_lazy k acc s = Some r ->
  exists body rest,
    s = body +:+ rest /\ k (acc +:+ body) rest = Some r /\
    forall b1 b2, body = b1 +:+ b2 -> b2 <> EmptyString ->
                  k (acc +:+ b1) (b2 +:+ rest) = None.
Proof.
  revert acc. induction s as [|c s IH]; intros acc H; cbn [Re.any_lazy] in H.
  - destruct (k acc EmptyString) eqn:E; [|discriminate].
    inversion H; subst. exists EmptyString, EmptyString.
    rewrite (sapp_nil_r acc). repeat split; [exact E|].
    intros b1 b2 Hb Hne. destruct b1; [|discriminate].
    rewrite sapp_nil_l in Hb. congruence.
  - destruct (k acc (String c s)) eqn:E.
    + inversion H; subst. exists EmptyString, (String c s).
      rewrite (sapp_nil_r acc). repeat split; [exact E|].
      intros b1 b2 Hb Hne. destruct b1; [|discriminate].
      rewrite sapp_nil_l in Hb. congruence.
    + destruct (IH _ H) as (body & rest & -> & Hk & Hmin).
      exists (String c body), rest. split; [reflexivity|].
      rewrite sapp_assoc in Hk. split; [exact Hk|].
      intros b1 b2 Hb Hne. destruct b1 as [|d b1].
      * rewrite sapp_nil_l in Hb. subst b2.
        now rewrite (sapp_nil_r acc), sapp_cons.
      * rewrite sapp_cons in Hb. injection Hb as <- Hb.
        specialize (Hmin b1 b2 Hb Hne). now rewrite sapp_assoc in Hmin.
Qed.

Lemma lazy_group_no_trailing_space s g :
  Re.any_lazy closer EmptyString s = Some g -> Py.rstrip g = g.
Proof.
  intros H. apply any_lazy_first in H as (body & rest & -> & Hk & Hmin).
  rewrite sapp_nil_l in Hk.
  destruct (closer_sound _ _ _ Hk) as (-> & ws & post & -> & Hws & Hne).
  destruct (string_snoc_cases body) as [-> | (b & c & ->)]; [reflexivity|].
  destruct (Py.is_space c) eqn:Hc.
  - exfalso. specialize (Hmin b (String c EmptyString) eq_refl).
    rewrite sapp_nil_l, sapp_cons, sapp_nil_l in Hmin.
    rewrite <- sapp_cons in Hmin.
    rewrite (closer_complete b (String c ws) post) in Hmin.
    + now specialize (Hmin ltac:(discriminate)).
    + cbn [all_space]. now rewrite Hc, Hws.
    + discriminate.
  - now apply rstrip_chars_snoc.
Qed.

Lemma greedy_spaces_no_leading_space s g :
  Re.spaces (Re.any_lazy closer EmptyString) s = Some g -> Py.lstrip g = g.
Proof.
  induction s as [|c s IH]; intros H; [discriminate|].
  cbn [Re.spaces] in H. destruct (Py.is_space c); [|discriminate].
  destruct (Re.spaces (Re.any_lazy closer EmptyString) s) as [r|] eqn:E.
  - inversion H; subst r. now apply IH.
  - apply any_lazy_sound in H as (body & rest & -> & Hk).
    rewrite sapp_nil_l in Hk.
    destruct (closer_sound _ _ _ Hk) as (-> & ws & post & -> & Hws & Hne).
    destruct body as [|d body]; [reflexivity|].
    unfold Py.lstrip. cbn [Py.lstrip_chars].
    destruct (Py.is_space d) eqn:Hd; [|reflexivity].
    exfalso. rewrite sapp_cons in E. cbn [Re.spaces] in E. rewrite Hd in E.
    destruct (Re.spaces (Re.any_lazy closer EmptyString)
                (body +:+ ws +:+ Re.fence +:+ post)); [discriminate|].
    destruct (any_lazy_complete closer EmptyString body
                (ws +:+ Re.fence +:+ post)) as [r Hr].
    + rewrite sapp_nil_l, closer_complete by assumption. eauto.
    + congruence.
Qed.

Lemma match_here_stripped s g : Re.match_here s = Some g -> Py.strip g = g.
Proof.
  unfold Re.match_here. intros H.
  apply lit_sound in H as (s1 & -> & H).
  pose proof (greedy_spaces_no_leading_space _ _ H) as Hl.
  apply spaces_sound in H as (ws1 & s2 & -> & _ & _ & H).
  apply lazy_group_no_trailing_space in H.
  unfold Py.strip. now rewrite H.
Qed.

Variable api_create : list api_request -> api_request -> outcome string.

(** X18: the code that [anthropic_request] takes out of a block has no
    white space at its start and none at its end, whatever white space the
    block has inside its fences: the indentation of the first line of the
    block is lost, that of the other lines is kept. *)
Theorem extracted_code_is_stripped (msg code prompt : string) (w : world)
    (text : string) :
  api_create (api_calls w)
    {| req_system := prompt; req_text := msg +:+ Py.nl +:+ code |} = Ok text ->
  has_python_block text ->
  exists r w',
    anthropic_request api_create msg code prompt w = (Ok r, w') /\
    Py.strip r = r.
Proof.
  intros H (pre & s & body & Heq & Hblock).
  destruct (anthropic_request_run _ _ _ _ _ _ H) as [w' Hrun].
  eexists _, w'. split; [exact Hrun|].
  destruct (Re.search text) as [g|] eqn:Hs.
  - destruct (search_sound _ _ Hs) as (pre' & s' & _ & Hm & _).
    exact (match_here_stripped _ _ Hm).
  - exfalso. apply match_here_complete in Hblock as [g' Hg'].
    rewrite (search_none _ Hs pre s Heq) in Hg'. discriminate.
Qed.
End BlockFacts.

(** X18 on a reply whose block carries the tag. *)
Lemma extracted_code_is_stripped_witness :
  exists r w',
    anthropic_request (replies [tagged_reply]) "m" "c" "p" (fresh ∅)
      = (Ok r, w') /\
    Py.strip r = r.
Proof.
  apply (extracted_code_is_stripped (replies [tagged_reply]) "m" "c" "p"
           (fresh ∅) tagged_reply).
  - vm_compute. reflexivity.
  - exists ("Here is the fix:" +:+ Py.nl),
      (Re.opener +:+ Py.nl +:+ "x = 1" +:+ Py.nl +:+ Re.fence +:+ Py.nl),
      "x = 1".
    split; [reflexivity|].
    exists Py.nl, Py.nl, Py.nl. repeat split; try reflexivity; discriminate.
Defined.

(* ===================================================================== *)
(** ** The records of the report, the names of the dataset *)
(* ===================================================================== *)

Lemma nth_field_clean (parts : list string) (i : nat) :
  Forall (fun l => has_char ":" l = false) parts ->
  (i < length parts)%nat ->
  clean_field (Py.strip (nth i parts EmptyString)).
Proof.
  intros Hall Hi. split; [|apply strip_idem].
  apply has_char_strip. rewrite Forall_forall in Hall.
  apply Hall, list_elem_of_In, nth_In, Hi.
Qed.

Lemma accepted_clean line rec :
  accepted line = Some rec ->
  clean_field (file_path rec) /\ clean_field (character rec) /\
  clean_field (error_code rec) /\ clean_field (error_message rec).
Proof.
  unfold accepted, report_fields.
  pose proof (split_no_sep ":" (Py.strip line)) as Hall.
  destruct (5 <=? length (Py.split ":" (Py.strip line)))%nat eqn:Hlen;
    [|discriminate].
  apply Nat.leb_le in Hlen.
  destruct (Py.int _); [|discriminate].
  intros H. inversion H; subst rec. cbn.
  repeat split; apply nth_field_clean; try assumption; lia.
Qed.

(** X19: in every record that [parse_pylint_warnings] returns, the path,
    the column, the code and the message have no white space around them
    and no colon in them; a message that has a colon is cut at it. *)
Theorem parsed_fields_are_clean (path : string) (w w' : world)
    (ws : list warning) :
  parse_pylint_warnings path w = (Ok ws, w') ->
  Forall (fun rec =>
            clean_field (file_path rec) /\ clean_field (character rec) /\
            clean_field (error_code rec) /\ clean_field (error_message rec))
         ws.
Proof.
  unfold parse_pylint_warnings, bind, open_lines.
  destruct (files w !! path) as [[text|delivered]|]; try discriminate;
    rewrite parse_lines_run; [|discriminate].
  intros H. inversion H; subst.
  apply Forall_forall. intros rec Hin.
  apply list_elem_of_omap in Hin as (line & _ & Hacc).
  exact (accepted_clean _ _ Hacc).
Qed.

(** X19 on the report of three lines. *)
Lemma parsed_fields_are_clean_witness :
  Forall (fun rec =>
            clean_field (file_path rec) /\ clean_field (character rec) /\
            clean_field (error_code rec) /\ clean_field (error_message rec))
         [ {| file_path := "a.py"; line_number := 3; character := "0";
              error_code := "C0114"; error_message := "Missing" |} ].
Proof.
  cbv zeta.
  apply (parsed_fields_are_clean "r.txt"
           (fresh {[ "r.txt" := Text report_three ]})
           (snd (parse_pylint_warnings "r.txt"
                   (fresh {[ "r.txt" := Text report_three ]})))).
  vm_compute. reflexivity.
Defined.

Lemma truthy_not_empty s : Py.truthy s = true -> s <> EmptyString.
Proof. destruct s; [discriminate|]. intros _. discriminate. Qed.

Lemma project_names_clean rows :
  Forall (fun n => n <> EmptyString /\ Py.strip n = n) (project_names rows) /\
  (length (project_names rows) <= length rows)%nat.
Proof.
  induction rows as [|row rows [IH1 IH2]]; [split; [constructor | reflexivity]|].
  cbn [project_names length].
  destruct (Py.truthy (Py.strip (Py.join EmptyString row))) eqn:E.
  - split; [|cbn [length]; lia]. constructor; [|exact IH1].
    split; [now apply truthy_not_empty | apply strip_idem].
  - split; [exact IH1 | lia].
Qed.

(** X20: [fetch_repositories] fails, with the [StopIteration] of [next],
    exactly when the dataset has no row at all; otherwise it never returns
    an empty name nor a name with white space around it, and it returns
    fewer names than the dataset has rows, the first of which, the header,
    is never among them. *)
Theorem fetch_repositories_names (rows : list (list string)) :
  (fetch_repositories rows = None <-> rows = []) /\
  forall names,
    fetch_repositories rows = Some names ->
    Forall (fun n => n <> EmptyString /\ Py.strip n = n) names /\
    (length names < length rows)%nat /\
    names = project_names (tail rows).
Proof.
  destruct rows as [|header rows]; cbn [fetch_repositories].
  - split; [split; reflexivity|]. discriminate.
  - split; [split; discriminate|].
    intros names H. inversion H; subst.
    destruct (project_names_clean rows) as [H1 H2].
    repeat split; [exact H1 | cbn [length]; lia].
Qed.

Lemma split_length sep s :
  length (Py.split sep s) = S (count_char sep s).
Proof.
  induction s as [|c s IH]; [reflexivity|]. cbn [Py.split count_char].
  destruct (Ascii.eqb c sep).
  - cbn [length]. now rewrite IH.
  - destruct (Py.split sep s) as [|x xs]; [discriminate|].
    cbn [length] in *. exact IH.
Qed.

(** X21: the unpacking of a repository name in [auto_fix] succeeds exactly
    when the name has one slash, no more and no fewer; any other name ends
    [auto_fix] with [ValueError]. *)
Theorem repo_path_needs_one_slash (dataset repo : string) :
  is_Some (repo_path dataset repo) <-> count_char "/" repo = 1%nat.
Proof.
  unfold repo_path.
  pose proof (split_length "/" repo) as Hlen.
  destruct (Py.split "/" repo) as [|a [|b [|c l]]]; cbn [map length] in *.
  - discriminate.
  - split; [intros [x Hx]; discriminate | lia].
  - split; [intros _; lia | eauto].
  - split; [intros [x Hx]; discriminate | lia].
Qed.

Lemma lstrip_chars_length sp s :
  (String.length (Py.lstrip_chars sp s) <= String.length s)%nat.
Proof.
  induction s as [|d s IH]; [reflexivity|]. cbn [Py.lstrip_chars].
  destruct (sp d); cbn [String.length]; lia.
Qed.

Lemma lstrip_fixed_head c s :
  Py.lstrip (String c s) = String c s -> Py.is_space c = false.
Proof.
  unfold Py.lstrip. cbn [Py.lstrip_chars].
  destruct (Py.is_space c); [|reflexivity]. intros H.
  pose proof (lstrip_chars_length Py.is_space s) as Hlen.
  rewrite H in Hlen. cbn [String.length] in Hlen. lia.
Qed.

Lemma strip_fixed s :
  Py.strip s = s -> Py.rstrip s = s /\ Py.lstrip s = s.
Proof.
  intros H.
  assert (Hr : Py.rstrip s = s).
  { rewrite <- H at 1. unfold Py.strip, Py.lstrip, Py.rstrip.
    rewrite rstrip_lstrip_chars by apply rstrip_chars_idem. exact H. }
  split; [exact Hr|]. unfold Py.strip in H. now rewrite Hr in H.
Qed.

Lemma rstrip_after_spaces k s :
  Py.rstrip s = s -> s <> EmptyString ->
  Py.rstrip (Py.repeat_nat k " " +:+ s) = Py.repeat_nat k " " +:+ s.
Proof.
  intros Hr Hne. unfold Py.rstrip in *. induction k as [|k IH].
  - cbn [Py.repeat_nat]. now rewrite sapp_nil_l.
  - cbn [Py.repeat_nat]. rewrite sapp_cons, sapp_nil_l, sapp_cons.
    cbn [Py.rstrip_chars]. rewrite IH.
    destruct (Py.repeat_nat k " " +:+ s) eqn:D; [|reflexivity].
    destruct k; [|discriminate]. cbn [Py.repeat_nat] in D.
    rewrite sapp_nil_l in D. congruence.
Qed.

Lemma lstrip_after_spaces k s :
  Py.lstrip (Py.repeat_nat k " " +:+ s) = Py.lstrip s.
Proof.
  unfold Py.lstrip. induction k as [|k IH].
  - cbn [Py.repeat_nat]. now rewrite sapp_nil_l.
  - cbn [Py.repeat_nat]. rewrite sapp_cons, sapp_nil_l, sapp_cons. exact IH.
Qed.

Lemma leading_whitespace_spaces k c s :
  Py.is_space c = false ->
  leading_whitespace (Py.repeat_nat k " " +:+ String c s) = k.
Proof.
  intros Hc. unfold leading_whitespace. induction k as [|k IH].
  - cbn [Py.repeat_nat]. rewrite sapp_nil_l. cbn [leading]. now rewrite Hc.
  - cbn [Py.repeat_nat]. rewrite sapp_cons, sapp_nil_l, sapp_cons.
    cbn [leading]. now rewrite IH.
Qed.

(** X22: for a line indented with spaces, re-indenting its stripped
    content by the indentation measured on the line gives back the line:
    what the pattern of the reply strips from a line, [add_indentation]
    puts back. *)
Theorem reindent_restores_line (k : nat) (body : string) :
  body <> EmptyString ->
  Py.strip body = body ->
  has_char Py.newline body = false ->
  let line := Py.repeat_nat k " " +:+ body +:+ Py.nl in
  get_starting_indentation line = Z.of_nat k /\
  add_indentation body (get_starting_indentation line) = line.
Proof.
  intros Hne Hstrip Hnl line.
  destruct (strip_fixed _ Hstrip) as [Hr Hl].
  destruct body as [|c body]; [congruence|].
  pose proof (lstrip_fixed_head _ _ Hl) as Hc.
  assert (Hw : get_starting_indentation line = Z.of_nat k).
  { unfold get_starting_indentation, line, Py.nl.
    rewrite <- sapp_assoc, split_app_sep
      by (rewrite has_char_app, Hnl, has_char_repeat; reflexivity).
    cbn [Py.split first_indentation].
    rewrite len_minus_lstrip, (leading_whitespace_spaces _ _ _ Hc).
    unfold Py.strip.
    rewrite (rstrip_after_spaces _ _ Hr Hne), lstrip_after_spaces, Hl.
    reflexivity. }
  split; [exact Hw|]. rewrite Hw.
  unfold add_indentation. rewrite (split_no_sep_whole _ _ Hnl).
  cbn [map Py.join]. rewrite Hstrip. cbn [Py.truthy].
  unfold Py.mul. rewrite Nat2Z.id. unfold line. now rewrite sapp_assoc.
Qed.

(** X22 on a line indented by four spaces. *)
Lemma reindent_restores_line_witness :
  get_starting_indentation ("    " +:+ "x = 1" +:+ Py.nl) = 4 /\
  add_indentation "x = 1" (get_starting_indentation ("    " +:+ "x = 1" +:+ Py.nl))
    = "    " +:+ "x = 1" +:+ Py.nl.
Proof.
  apply (reindent_restores_line 4 "x = 1"); [discriminate | reflexivity..].
Defined.

(* ===================================================================== *)
(** ** The further properties on concrete runs *)
(* ===================================================================== *)

(** X1 on line 2 of the file of three lines. *)
Lemma extract_line_in_range_witness :
  let w := fresh {[ "./a.py" := Text compare_source ]} in
  exists line,
    extract_code_from_context (parses_as []) "./a.py" 2 LINE w
      = (Ok (line, 2, 2), w) /\
    Py.readlines (Py.universal_newlines compare_source) !! Z.to_nat (2 - 1)
      = Some line /\
    Py.universal_newlines compare_source =
      Py.concat_lines
        (take (Z.to_nat (2 - 1))
              (Py.readlines (Py.universal_newlines compare_source)))
      +:+ line +:+
      Py.concat_lines
        (drop (Z.to_nat 2) (Py.readlines (Py.universal_newlines compare_source))).
Proof.
  cbv zeta.
  apply (extract_line_in_range (parses_as []) "./a.py" 2 _ compare_source).
  - vm_compute. reflexivity.
  - split; [lia|]. vm_compute. discriminate.
Defined.

(** X2 on line 0 of the same file: the span is its last line. *)
Lemma extract_line_counts_from_end_witness :
  let w := fresh {[ "./a.py" := Text compare_source ]} in
  exists line,
    extract_code_from_context (parses_as []) "./a.py" 0 LINE w
      = (Ok (line, 0, 0), w) /\
    Py.readlines (Py.universal_newlines compare_source)
      !! Z.to_nat (Z.of_nat (length (Py.readlines
                                      (Py.universal_newlines compare_source)))
                   + 0 - 1)
      = Some line.
Proof.
  cbv zeta.
  apply (extract_line_counts_from_end (parses_as []) "./a.py" 0 _ compare_source).
  - vm_compute. reflexivity.
  - split; [|lia]. vm_compute. reflexivity.
Defined.

(** X3 on the substitution of line 2. *)
Lemma replace_code_splices_witness :
  let w := fresh {[ "./a.py" := Text compare_source ]} in
  replace_code_in_file "./a.py" ("if not x:" +:+ Py.nl) 2 2 w =
    (Ok tt,
     {| files :=
          <["./a.py" :=
              Text ("x = []" +:+ Py.nl +:+ "if not x:" +:+ Py.nl +:+
                    "    pass" +:+ Py.nl)]> (files w);
        api_calls := api_calls w; log := log w |}).
Proof.
  cbv zeta.
  apply (replace_code_splices "./a.py" ("if not x:" +:+ Py.nl) 2 2 _
           compare_source).
  - vm_compute. reflexivity.
  - lia.
  - vm_compute. discriminate.
Defined.

(** X4 on the same file: the new code lands before the last line. *)
Lemma replace_code_zero_span_witness :
  let w := fresh {[ "./a.py" := Text compare_source ]} in
  replace_code_in_file "./a.py" ("y = 0" +:+ Py.nl) 0 0 w =
    (Ok tt,
     {| files :=
          <["./a.py" :=
              Text ("x = []" +:+ Py.nl +:+ "if x == []:" +:+ Py.nl +:+
                    "y = 0" +:+ Py.nl +:+ "    pass" +:+ Py.nl)]> (files w);
        api_calls := api_calls w; log := log w |}).
Proof.
  cbv zeta.
  apply (replace_code_zero_span "./a.py" ("y = 0" +:+ Py.nl) _ compare_source).
  vm_compute. reflexivity.
Defined.

(** X5 on the first two lines of the same file. *)
Lemma replace_code_round_trip_witness :
  let w := fresh {[ "./a.py" := Text compare_source ]} in
  exists w',
    replace_code_in_file "./a.py"
      (Py.concat_lines
         (Py.slice (Py.readlines (Py.universal_newlines compare_source))
                   (1 - 1) 2))
      1 2 w = (Ok tt, w') /\
    read_text "./a.py" w' = (Ok (Py.universal_newlines compare_source), w').
Proof.
  cbv zeta.
  apply (replace_code_round_trip "./a.py" 1 2 _ compare_source).
  - vm_compute. reflexivity.
  - lia.
  - vm_compute. discriminate.
Defined.

(** X6: a patch of two lines at line 2 leaves line 1 where it was. *)
Lemma replace_code_keeps_earlier_lines_witness :
  let w := fresh {[ "./a.py" := Text compare_source ]} in
  exists w' line,
    replace_code_in_file "./a.py" ("a" +:+ Py.nl +:+ "b" +:+ Py.nl) 2 2 w
      = (Ok tt, w') /\
    extract_code_from_context (parses_as []) "./a.py" 1 LINE w
      = (Ok (line, 1, 1), w) /\
    extract_code_from_context (parses_as []) "./a.py" 1 LINE w'
      = (Ok (line, 1, 1), w').
Proof.
  cbv zeta.
  apply (replace_code_keeps_earlier_lines (parses_as []) "./a.py"
           ("a" +:+ Py.nl +:+ "b" +:+ Py.nl) 2 2 1 _ compare_source).
  - vm_compute. reflexivity.
  - lia.
  - vm_compute. discriminate.
Defined.

(** X8 on the nested functions: the span of the outer one has four lines. *)
Lemma method_span_line_count_witness :
  let w := fresh {[ "./a.py" := Text nested_source ]} in
  exists method_str,
    extract_method_from_line (parses_as [(nested_source, nested_tree)])
      "./a.py" 3 w = (Ok (method_str, 1, 4), w) /\
    Py.split Py.newline method_str =
      Py.slice (Py.split Py.newline (Py.universal_newlines nested_source))
               (1 - 1) 4 /\
    Z.of_nat (length (Py.split Py.newline method_str)) = 4 - 1 + 1.
Proof.
  cbv zeta.
  apply (method_span_line_count (parses_as [(nested_source, nested_tree)])
           "./a.py" 3 _ nested_source nested_tree outer_def).
  - vm_compute. reflexivity.
  - vm_compute. reflexivity.
  - vm_compute. reflexivity.
  - cbn. lia.
  - vm_compute. discriminate.
Defined.

(** X9 on a line of a coroutine. *)
Lemma method_falls_back_to_line_witness :
  let w := fresh {[ "./a.py" := Text async_source ]} in
  extract_code_from_context (parses_as [(async_source, async_tree)])
    "./a.py" 2 METHOD w =
  extract_code_from_context (parses_as [(async_source, async_tree)])
    "./a.py" 2 LINE (add_log w (INFO, MethodNotFound 2 "./a.py")).
Proof.
  cbv zeta.
  apply (method_falls_back_to_line (parses_as [(async_source, async_tree)])
           "./a.py" 2 _ async_source async_tree).
  - vm_compute. reflexivity.
  - vm_compute. reflexivity.
  - intros m Hm Hfd. apply list_elem_of_In in Hm. vm_compute in Hm.
    repeat (destruct Hm as [<- | Hm]; [discriminate Hfd|]). destruct Hm.
Defined.

(** X10: the attempt that leaves [a.py] broken does not touch [b.py]. *)
Lemma fix_warnings_writes_only_targets_witness :
  let w := fresh two_files in
  let r := fix_warnings (compiles_only [compare_source]) (parses_as [])
             (replies ["if not x"]) [warning_compare] w in
  files (snd r) !! "./b.py" = files w !! "./b.py".
Proof.
  cbv zeta.
  apply (fix_warnings_writes_only_targets (compiles_only [compare_source])
           (parses_as []) (replies ["if not x"]) [warning_compare]
           (fresh two_files) _ _ "./b.py" (surjective_pairing _)).
  intros Hin. apply list_elem_of_In in Hin. vm_compute in Hin.
  destruct Hin as [Hin | []]. discriminate Hin.
Defined.

(** X11 on the same attempt. *)
Lemma fix_warnings_one_call_per_warning_witness :
  let w := fresh two_files in
  let r := fix_warnings (compiles_only [compare_source]) (parses_as [])
             (replies ["if not x"]) [warning_compare] w in
  exists new, api_calls (snd r) = api_calls w ++ new /\ (length new <= 1)%nat.
Proof.
  cbv zeta.
  apply (fix_warnings_one_call_per_warning (compiles_only [compare_source])
           (parses_as []) (replies ["if not x"]) [warning_compare]
           (fresh two_files) _ _ (surjective_pairing _)).
Defined.

(** X12 on the batch of two warnings that ends normally. *)
Lemma fix_warnings_keeps_files_valid_witness :
  let pyc := compiles_only [two_source; two_source_1] in
  let w := fresh {[ "./a.py" := Text two_source ]} in
  compiles pyc
    (snd (fix_warnings pyc (parses_as []) (replies two_replies)
            [warning_line 3; warning_line 1] w))
    "./a.py".
Proof.
  cbv zeta.
  apply (fix_warnings_keeps_files_valid
           (compiles_only [two_source; two_source_1]) (parses_as [])
           (replies two_replies) [warning_line 3; warning_line 1]
           (fresh {[ "./a.py" := Text two_source ]})).
  - vm_compute. reflexivity.
  - exists two_source. split; vm_compute; reflexivity.
Defined.

(** X13 on a warning whose code the catalog does not have. *)
Lemma fix_warnings_skips_uncovered_codes_witness :
  let w := fresh two_files in
  fix_warnings (compiles_only []) (parses_as []) (replies [])
    [ {| file_path := "a.py"; line_number := 1; character := "0";
         error_code := "C0114"; error_message := "m" |} ] w = (Ok tt, w).
Proof.
  cbv zeta.
  apply (fix_warnings_skips_uncovered_codes (compiles_only []) (parses_as [])
           (replies [])).
  constructor; [|constructor].
  intros Hin. apply list_elem_of_In in Hin. vm_compute in Hin.
  repeat (destruct Hin as [Hin | Hin]; [discriminate Hin|]). destruct Hin.
Defined.

(** X14: the warning of line 999 ends the batch before the warning of
    line 1, which comes before it in the report, is handled. *)
Lemma fix_warnings_stops_at_exception_witness :
  let pyc := compiles_only [fifty_lines] in
  let w := fresh {[ "./a.py" := Text fifty_lines ]} in
  fix_warnings pyc (parses_as []) (replies [])
    ([warning_line 1] ++ warning_999 :: []) w =
  (Raise IndexError,
   snd (dispatch pyc (parses_as []) (replies []) PYLINT_FIXES warning_999 w)).
Proof.
  cbv zeta.
  apply (fix_warnings_stops_at_exception (compiles_only [fifty_lines])
           (parses_as []) (replies []) [warning_line 1] [] warning_999
           (fresh {[ "./a.py" := Text fifty_lines ]})
           (fresh {[ "./a.py" := Text fifty_lines ]})).
  - reflexivity.
  - vm_compute. reflexivity.
Defined.

(** X15 on the warning of line 1 and the reply of two lines. *)
Lemma apply_fix_validated_witness :
  let pyc := compiles_only [two_source; two_source_1] in
  let fx := mkfix "use-implicit-booleaness-not-comparison" "C1803" LINE in
  let w := fresh {[ "./a.py" := Text two_source ]} in
  exists w',
    apply_fix_to_warning pyc (parses_as []) (replies two_replies) fx
      (warning_line 1) w = (Ok tt, w') /\
    files w' = <["./a.py" := Text two_source_1]> (files w) /\
    api_calls w' =
      api_calls w ++
      [ {| req_system := DEFAULT_PROMPT;
           req_text := "m" +:+ Py.nl +:+ ("if a == []: a = [0]" +:+ Py.nl) |} ].
Proof.
  cbv zeta.
  pose (pyc := compiles_only [two_source; two_source_1]).
  pose (fx := mkfix "use-implicit-booleaness-not-comparison" "C1803" LINE).
  pose (w := fresh {[ "./a.py" := Text two_source ]}).
  pose (w1 := snd (check_python_file pyc "./a.py" w)).
  pose (w2 := snd (extract_code_from_context (parses_as []) "./a.py" 1 LINE w1)).
  pose (w3 := snd (anthropic_request (replies two_replies) "m"
                     ("if a == []: a = [0]" +:+ Py.nl) DEFAULT_PROMPT w2)).
  apply (apply_fix_validated pyc (parses_as []) (replies two_replies) fx
           (warning_line 1) w w1 w2 w3 two_source
           ("if a == []: a = [0]" +:+ Py.nl)
           ("if not a:" +:+ Py.nl +:+ "    a = [0]") 1 1).
  - vm_compute. reflexivity.
  - vm_compute. reflexivity.
  - vm_compute. reflexivity.
  - vm_compute. reflexivity.
  - vm_compute. reflexivity.
Defined.

(** X16 on a suggester that fails. *)
Lemma apply_fix_suggester_failure_witness :
  let pyc := compiles_only [compare_source] in
  let fx := mkfix "use-implicit-booleaness-not-comparison" "C1803" LINE in
  let w := fresh {[ "./a.py" := Text compare_source ]} in
  exists w',
    apply_fix_to_warning pyc (parses_as []) (replies []) fx warning_compare w
      = (Raise APIError, w') /\
    files w' = files w /\
    api_calls w' =
      api_calls w ++
      [ {| req_system := DEFAULT_PROMPT;
           req_text := "m" +:+ Py.nl +:+ ("if x == []:" +:+ Py.nl) |} ].
Proof.
  cbv zeta.
  pose (pyc := compiles_only [compare_source]).
  pose (w := fresh {[ "./a.py" := Text compare_source ]}).
  pose (w1 := snd (check_python_file pyc "./a.py" w)).
  pose (w2 := snd (extract_code_from_context (parses_as []) "./a.py" 2 LINE w1)).
  apply (apply_fix_suggester_failure pyc (parses_as []) (replies [])
           (mkfix "use-implicit-booleaness-not-comparison" "C1803" LINE)
           warning_compare w w1 w2 ("if x == []:" +:+ Py.nl) 2 2 APIError).
  - vm_compute. reflexivity.
  - vm_compute. reflexivity.
  - reflexivity.
Defined.

(** X17 on a fix at the granularity of a class. *)
Lemma apply_fix_unsupported_context_witness :
  let pyc := compiles_only [compare_source] in
  let fx := mkfix "some-fix" "C1803" CLASS in
  let w := fresh {[ "./a.py" := Text compare_source ]} in
  exists r w',
    apply_fix_to_warning pyc (parses_as []) (replies ["y = 0"]) fx
      warning_compare w = (r, w') /\
    files w' =
      <["./a.py" :=
          Text ("x = []" +:+ Py.nl +:+ "if x == []:" +:+ Py.nl +:+
                "y = 0" +:+ Py.nl +:+ "    pass" +:+ Py.nl)]> (files w).
Proof.
  cbv zeta.
  apply (apply_fix_unsupported_context (compiles_only [compare_source])
           (parses_as []) (replies ["y = 0"]) (mkfix "some-fix" "C1803" CLASS)
           warning_compare (fresh {[ "./a.py" := Text compare_source ]})
           compare_source "y = 0").
  - discriminate.
  - discriminate.
  - vm_compute. reflexivity.
  - vm_compute. reflexivity.
  - reflexivity.
Defined.

(* ===================================================================== *)
(** ** Group 1 of the first match *)
(* ===================================================================== *)

Lemma sapp_cancel_l a b c : a +:+ b = a +:+ c -> b = c.
Proof.
  induction a as [|x a IH]; [now rewrite !sapp_nil_l|].
  rewrite !sapp_cons. intros H. injection H as H. exact (IH H).
Qed.

(** Two ways to cut one text: the shorter first part is the start of the
    longer one. *)
Lemma sapp_split_le a b c d :
  a +:+ b = c +:+ d -> (String.length a <= String.length c)%nat ->
  exists e, c = a +:+ e /\ b = e +:+ d.
Proof.
  revert c. induction a as [|x a IH]; intros c H Hlen.
  - exists c. now rewrite sapp_nil_l in *.
  - destruct c as [|y c]; [cbn in Hlen; lia|].
    rewrite !sapp_cons in H. injection H as -> H.
    destruct (IH c H) as (e & -> & ->); [cbn in Hlen; lia|].
    now exists e.
Qed.

Lemma sapp_same_length a b c d :
  a +:+ b = c +:+ d -> String.length a = String.length c -> a = c /\ b = d.
Proof.
  intros H Hlen. destruct (sapp_split_le a b c d H) as (e & -> & ->); [lia|].
  destruct e as [|x e].
  - now rewrite sapp_nil_r, sapp_nil_l.
  - exfalso. clear H. induction a as [|y a IH]; cbn in Hlen; [discriminate|].
    rewrite sapp_cons in Hlen. cbn in Hlen. injection Hlen as Hlen.
    exact (IH Hlen).
Qed.

(** [\s+] is greedy: what follows it fails after every longer run of white
    space than the one it settles for. *)
Lemma spaces_first {R} (k : string -> option R) s r :
  Re.spaces k s = Some r ->
  exists ws rest,
    s = ws +:+ rest /\ all_space ws = true /\ ws <> EmptyString /\
    k rest = Some r /\
    forall ws' rest',
      s = ws' +:+ rest' -> all_space ws' = true ->
      (String.length ws < String.length ws')%nat -> k rest' = None.
Proof.
  revert r. induction s as [|c s IH]; intros r H; [discriminate|].
  cbn [Re.spaces] in H. destruct (Py.is_space c) eqn:Hc; [|discriminate].
  destruct (Re.spaces k s) as [r'|] eqn:E.
  - inversion H; subst r'.
    destruct (IH r eq_refl) as (ws & rest & -> & Hws & Hne & Hk & Hmax).
    exists (String c ws), rest. repeat split; try assumption.
    + cbn [all_space]. now rewrite Hc, Hws.
    + discriminate.
    + intros ws' rest' Heq Hws' Hlen. destruct ws' as [|d ws'];
        [cbn in Hlen; lia|].
      rewrite !sapp_cons in Heq. injection Heq as <- Heq.
      cbn [all_space] in Hws'. apply andb_true_iff in Hws' as [_ Hws'].
      apply (Hmax ws' rest' Heq Hws'). cbn in Hlen. lia.
  - exists (String c EmptyString), s. repeat split; try assumption.
    + cbn [all_space]. now rewrite Hc.
    + discriminate.
    + intros ws' rest' Heq Hws' Hlen. destruct ws' as [|d ws'];
        [cbn in Hlen; lia|].
      rewrite sapp_cons in Heq. injection Heq as <- Heq.
      cbn [all_space] in Hws'. apply andb_true_iff in Hws' as [_ Hws'].
      destruct (k rest') eqn:Ek; [|reflexivity]. exfalso.
      destruct (spaces_complete k ws' rest' Hws') as [x Hx].
      * intros ->. cbn in Hlen. lia.
      * rewrite Ek. eauto.
      * rewrite <- Heq in Hx. congruence.
Qed.

(** The match of the pattern at the start of a text has, as its group, the
    body after the longest white space and before the first closing
    fence. *)
Lemma match_here_first_group s g :
  Re.match_here s = Some g -> first_group s g.
Proof.
  unfold Re.match_here. intros H.
  apply lit_sound in H as (t & -> & H).
  apply spaces_first in H as (ws1 & t1 & -> & Hws1 & Hne1 & H & Hgreedy).
  apply any_lazy_first in H as (body & rest & -> & Hk & Hlazy).
  rewrite sapp_nil_l in Hk.
  destruct (closer_sound _ _ _ Hk) as (-> & ws2 & post & -> & Hws2 & Hne2).
  exists ws1, ws2, post. split; [repeat split; assumption|].
  intros ws1' body' ws2' post' (Heq & Hs1 & Hn1 & Hs2 & Hn2).
  apply sapp_cancel_l in Heq.
  destruct (lt_eq_lt_dec (String.length ws1') (String.length ws1))
    as [[Hlt | Heql] | Hgt].
  - now left.
  - right. split; [exact Heql|].
    destruct (sapp_same_length _ _ _ _ Heq (eq_sym Heql)) as [-> Htail].
    destruct (le_lt_dec (String.length body) (String.length body'))
      as [Hle | Hlt]; [exact Hle|]. exfalso.
    destruct (sapp_split_le body' _ body _ (eq_sym Htail)) as (e & -> & He);
      [lia|].
    assert (Hne : e <> EmptyString).
    { intros ->. rewrite sapp_nil_r in Hlt. lia. }
    specialize (Hlazy body' e eq_refl Hne).
    rewrite sapp_nil_l, <- He in Hlazy.
    rewrite (closer_complete body' ws2' post' Hs2 Hn2) in Hlazy.
    discriminate.
  - exfalso.
    specialize (Hgreedy ws1' (body' +:+ ws2' +:+ Re.fence +:+ post') Heq Hs1 Hgt).
    destruct (any_lazy_complete
                (fun g : string => Re.spaces (Re.lit Re.fence (fun _ => Some g)))
                EmptyString body' (ws2' +:+ Re.fence +:+ post')) as [x Hx].
    + rewrite sapp_nil_l, closer_complete by assumption. eauto.
    + congruence.
Qed.

(** There is one such group at most. *)
Lemma first_group_unique s r r' :
  first_group s r -> first_group s r' -> r = r'.
Proof.
  intros (ws1 & ws2 & post & Hsplit & Hbest)
         (ws1' & ws2' & post' & Hsplit' & Hbest').
  specialize (Hbest _ _ _ _ Hsplit'). specialize (Hbest' _ _ _ _ Hsplit).
  destruct Hsplit as (Heq & _). destruct Hsplit' as (Heq' & _).
  rewrite Heq in Heq'. apply sapp_cancel_l in Heq'.
  assert (Hw : String.length ws1 = String.length ws1') by lia.
  destruct (sapp_same_length _ _ _ _ Heq' Hw) as [_ Htail].
  assert (Hr : String.length r = String.length r') by lia.
  exact (proj1 (sapp_same_length _ _ _ _ Htail Hr)).
Qed.

Section FirstMatchFacts.
Variable api_create : list api_request -> api_request -> outcome string.

(** C7, amended: when the suggester replies with [text], the engine
    returns group 1 of the first match of the pattern, if the text has a
    block opened by the fence with the tag [python] followed by white
    space and closed by white space followed by a fence: the match starts
    at the first place where such a block starts, and its group is the body
    after the longest white space that follows the opener, up to the first
    closing fence that white space precedes; no other text is that group.
    Otherwise, also when the text has blocks that carry no tag, the engine
    returns the text unchanged. It raises in neither case. *)
Theorem C7_python_block_or_raw (msg code prompt : string) (w : world)
    (text : string) :
  api_create (api_calls w)
    {| req_system := prompt; req_text := msg +:+ Py.nl +:+ code |} = Ok text ->
  exists r w',
    anthropic_request api_create msg code prompt w = (Ok r, w') /\
    (~ has_python_block text -> r = text) /\
    (has_python_block text ->
     exists pre s,
       text = pre +:+ s /\
       first_group s r /\
       (forall r', first_group s r' -> r' = r) /\
       (forall pre' s' body',
          text = pre' +:+ s' ->
          (String.length pre' < String.length pre)%nat ->
          ~ python_block_at s' body')).
Proof.
  intros H. destruct (anthropic_request_run _ _ _ _ _ _ H) as [w' Hrun].
  eexists _, w'. split; [exact Hrun|].
  destruct (Re.search text) as [g|] eqn:Hs.
  - destruct (search_sound _ _ Hs) as (pre & s & Heq & Hm & Hfirst).
    pose proof (match_here_first_group _ _ Hm) as Hg.
    split.
    + intros Hno. exfalso. apply Hno. exists pre, s, g.
      split; [exact Heq | now apply match_here_sound].
    + intros _. exists pre, s. split; [exact Heq|]. split; [exact Hg|].
      split.
      * intros r' Hr'. exact (first_group_unique _ _ _ Hr' Hg).
      * intros pre' s' body' Heq' Hlt Hblock.
        apply match_here_complete in Hblock as [g' Hg'].
        rewrite (Hfirst pre' s' Heq' Hlt) in Hg'. discriminate.
  - split; [reflexivity|].
    intros (pre & s & body & Heq & Hblock). exfalso.
    apply match_here_complete in Hblock as [g' Hg'].
    rewrite (search_none _ Hs pre s Heq) in Hg'. discriminate.
Qed.
End FirstMatchFacts.

(** The amended C7 on a reply with two blocks: the code returned is the
    body of the first one. *)
Lemma C7_witness :
  exists r w',
    anthropic_request (replies [two_block_reply]) "m" "c" "p" (fresh ∅)
      = (Ok r, w') /\
    r = "x = 1" /\
    (has_python_block two_block_reply ->
     exists pre s,
       two_block_reply = pre +:+ s /\
       first_group s r /\
       (forall r', first_group s r' -> r' = r) /\
       (forall pre' s' body',
          two_block_reply = pre' +:+ s' ->
          (String.length pre' < String.length pre)%nat ->
          ~ python_block_at s' body')).
Proof.
  destruct (C7_python_block_or_raw (replies [two_block_reply]) "m" "c" "p"
              (fresh ∅) two_block_reply eq_refl)
    as (r & w' & Hrun & _ & Hyes).
  exists r, w'. split; [exact Hrun|]. split; [|exact Hyes].
  vm_compute in Hrun. now injection Hrun as <- _.
Defined.

(** The amended C5 on a report of three warnings in ascending order: the
    warning of line 3 is handled first and that of line 1 last, and the
    three patches are applied. *)
Lemma C5_witness :
  let pyc := compiles_only [two_source; two_source_3; two_source_31] in
  let w := fresh {[ "./a.py" := Text two_source ]} in
  let report := [warning_line 1] ++ warning_line 2 :: [warning_line 3] in
  let r := fix_warnings pyc (parses_as []) (replies sorted_replies) report w in
  ascending (map line_number report) /\
  r = (fix_warnings pyc (parses_as []) (replies sorted_replies) [warning_line 3] >>
       dispatch pyc (parses_as []) (replies sorted_replies) PYLINT_FIXES
         (warning_line 2) >>
       fix_warnings pyc (parses_as []) (replies sorted_replies) [warning_line 1]) w
  /\ descending (map line_number (rev report))
  /\ fst r = Ok tt
  /\ map req_text (api_calls (snd r)) =
       [ "m" +:+ Py.nl +:+ "if b == []: b = [0]" +:+ Py.nl;
         "m" +:+ Py.nl +:+ "b = 2" +:+ Py.nl;
         "m" +:+ Py.nl +:+ "if a == []: a = [0]" +:+ Py.nl ]
  /\ files (snd r) !! "./a.py" = Some (Text two_source_31).
Proof.
  cbv zeta.
  assert (Hs : ascending (map line_number
                 ([warning_line 1] ++ warning_line 2 :: [warning_line 3]))).
  { cbn. repeat constructor; lia. }
  destruct (C5_reverse_of_report_order
              (compiles_only [two_source; two_source_3; two_source_31])
              (parses_as []) (replies sorted_replies)
              [warning_line 1] [warning_line 3] (warning_line 2)
              (fresh {[ "./a.py" := Text two_source ]}))
    as (_ & Heq & Hsorted).
  destruct (Hsorted Hs) as (_ & _ & Hdesc).
  split; [exact Hs|]. split; [exact Heq|]. split; [exact Hdesc|].
  vm_compute. repeat split; reflexivity.
Defined.

(** [int] refuses a literal of more digits than the limit, and the parser
    then logs the line as one it skips. *)
Lemma int_digit_limit s :
  Py.max_str_digits
    < Py.count_digits
        (Py.lstrip_chars Py.is_int_space (Py.rstrip_chars Py.is_int_space s)) ->
  Py.int s = None.
Proof.
  intros H. unfold Py.int. apply Z.ltb_lt in H. now rewrite H.
Qed.

(** On a report that does not decode to its end, the loop has handled the
    lines handed out before the error, and logged their skips, when the
    error ends it. *)
Lemma parse_undecodable_report path w delivered :
  files w !! path = Some (Undecodable delivered) ->
  parse_pylint_warnings path w =
    (Raise UnicodeDecodeError,
     add_logs w (map skip_record
                   (List.filter logged_skip
                      (Py.readlines (Py.universal_newlines delivered))))).
Proof.
  intros Hf. unfold parse_pylint_warnings, bind, open_lines. rewrite Hf.
  rewrite parse_lines_run. reflexivity.
Qed.

(** A line whose second field has 4301 digits is one of those: [int]
    refuses it, the line is skipped and the skip is logged. *)
Lemma long_line_number_is_skipped :
  let line := "a.py:" +:+ Py.repeat_nat 4300 "0" +:+ "7:0: C0114: m" +:+ Py.nl in
  accepted line = None /\ logged_skip line = true.
Proof. vm_compute. split; reflexivity. Qed.
